(** * Energy-mix scenario evaluator (plot.py): a shallow embedding

    The development follows [src/plot.py]:
    - [first_pass] is the body of the first loop of
      [create_interactive_energy_plot] (lines 41-101), one scenario;
    - [create_interactive_energy_plot] runs it for every nuclear fraction on
      the window [df_cf.loc[start_date:end_date]];
    - [update_graph] is the Dash callback that clips the requested window to
      the data and calls the function above under [try/except].

    Numbers.  The program computes on IEEE doubles; here a number is an exact
    rational ([Q], compared with [==]), so every statement below is about the
    arithmetic the program writes down, not about its rounding.  The one
    non-number a well-formed table can produce is the NaN that pandas returns
    for the maximum of an empty series: a value that may be NaN is an
    [option Q], with [None] for NaN.  Where rounding decides a property, the
    same lines are replayed on binary64 floats ([double_first_pass]).

    Figures.  The plotly figure is built from [scenario_data] only; the model
    returns [scenario_data] in its place and leaves traces and layout out. *)

From Stdlib Require Import QArith Qminmax Lqa ZArith Lia Floats.
From stdpp Require Import gmap strings list.

Open Scope Q_scope.

(** ** Exceptions *)

Inductive exn : Type :=
| KeyError (key : string)   (* [d[key]] on a dict without [key] *)
| IndexError                (* [l[i]] past the end of a list *)
| ValueError.               (* [max([])] *)

Inductive result (A : Type) : Type :=
| Ok (a : A)
| Raise (e : exn).
Arguments Ok {A} a.
Arguments Raise {A} e.

Definition bind {A B} (r : result A) (k : A -> result B) : result B :=
  match r with
  | Ok a => k a
  | Raise e => Raise e
  end.

Notation "'let!' x ':=' r 'in' k" := (bind r (fun x => k))
  (at level 10, x name, r at level 100, k at level 200).

Fixpoint mapM {A B} (f : A -> result B) (l : list A) : result (list B) :=
  match l with
  | [] => Ok []
  | a :: l' =>
      let! b := f a in
      let! bs := mapM f l' in
      Ok (b :: bs)
  end.

(** [d[key]] on a Python dict. *)
Definition getitem (d : gmap string Q) (key : string) : result Q :=
  match d !! key with
  | Some v => Ok v
  | None => Raise (KeyError key)
  end.

(** [l[i]] on a Python list. *)
Definition list_getitem {A} (l : list A) (i : nat) : result A :=
  match l !! i with
  | Some v => Ok v
  | None => Raise IndexError
  end.

(** ** Numbers and series *)

(** [x < y] as the program tests it. *)
Definition Qltb (x y : Q) : bool := negb (Qle_bool y x).

(** [Series.sum()]: 0 on the empty series. *)
Definition series_sum (s : list Q) : Q := fold_right Qplus 0 s.

(** [Series.clip(lower=lo)] and [Series.clip(upper=hi)], one entry. *)
Definition clip_lower (lo x : Q) : Q := if Qltb x lo then lo else x.
Definition clip_upper (hi x : Q) : Q := if Qltb hi x then hi else x.

(** [Series.max()]: NaN on the empty series. *)
Fixpoint series_max (s : list Q) : option Q :=
  match s with
  | [] => None
  | x :: s' =>
      match series_max s' with
      | None => Some x
      | Some m => Some (if Qltb x m then m else x)
      end
  end.

(** Python's builtin [max(a, b)]: [b] when [b > a], else [a]; a comparison
    with NaN is false. *)
Definition py_max (a b : option Q) : option Q :=
  match a, b with
  | Some x, Some y => if Qltb x y then b else a
  | _, _ => a
  end.

(** ** The capacity-factor table *)

(** One row of [df_cf]: the timestamp of the index, in hours since an epoch,
    and the five numeric columns the program reads. *)
Record Row : Type := {
  ts : Z;
  Load : Q;
  Nuclear : Q;
  Solar : Q;
  Wind_onshore : Q;
  Wind_offshore : Q
}.

(** The calendar day of a timestamp ([strftime('%Y-%m-%d')], [.date()]). *)
Definition day (t : Z) : Z := (t / 24)%Z.

(** [pd.to_datetime] of a date: midnight of that day. *)
Definition to_datetime (d : Z) : Z := (d * 24)%Z.

(** [Index.is_monotonic_increasing]. *)
Fixpoint is_monotonic_increasing (index : list Z) : bool :=
  match index with
  | [] => true
  | t :: index' =>
      match index' with
      | [] => true
      | t' :: _ => (t <=? t')%Z && is_monotonic_increasing index'
      end
  end.

(** [df_cf.loc[start_date:end_date]] with two day strings on a monotonic
    DatetimeIndex: the rows from the first instant of [start_date] to the
    last instant of [end_date], both days included.  A bound outside the
    index, or a start after the end, gives the empty frame. *)
Definition loc (df_cf : list Row) (start_date end_date : Z) : list Row :=
  filter (fun r => (start_date <= day (ts r) <= end_date)%Z) df_cf.

(** ** One scenario *)

(** The dict [installed_capacity], built with its four literal keys. *)
Record Installed : Type := {
  inst_Nuclear : Q;
  inst_Wind_offshore : Q;
  inst_Wind_onshore : Q;
  inst_Solar : Q
}.

(** A row of [df_] when [bess] is computed: the index and the four power
    columns. *)
Record Generation : Type := {
  gen_ts : Z;
  gen_Nuclear : Q;
  gen_Wind_offshore : Q;
  gen_Wind_onshore : Q;
  gen_Solar : Q
}.

(** A row of the finished [df_], with the two storage columns. *)
Record Profile : Type := {
  generation : Generation;
  Storage_potential : Q;
  Storage_consumption_requirement : Q
}.

(** What one pass of the first loop computes: the entry appended to
    [installed_capacities], to [battery_capacities] and to [scenario_data],
    and the local series [bess]. *)
Record Scenario : Type := {
  installed_capacity : Installed;
  df_ : list Profile;
  load : list Q;
  bess : list Q;
  battery_capacity : option Q;
  nuclear_fraction : Q
}.

(** Lines 78-81: the four columns of [df_], capacity factor times installed
    capacity. *)
Definition power_profile (inst : Installed) (r : Row) : Generation :=
  {| gen_ts := ts r;
     gen_Nuclear := Nuclear r * inst_Nuclear inst;
     gen_Wind_offshore := Wind_offshore r * inst_Wind_offshore inst;
     gen_Wind_onshore := Wind_onshore r * inst_Wind_onshore inst;
     gen_Solar := Solar r * inst_Solar inst |}.

(** [df_.sum(axis=1)], one row. *)
Definition row_sum (g : Generation) : Q :=
  gen_Nuclear g + gen_Wind_offshore g + gen_Wind_onshore g + gen_Solar g.

(** Lines 87-88: the two storage columns, from one entry of [bess]. *)
Definition with_storage (g : Generation) (b : Q) : Profile :=
  {| generation := g;
     Storage_potential := - clip_lower 0 b;
     Storage_consumption_requirement := - clip_upper 0 b |}.

(** Lines 41-101, on the sliced frame [df_cf_period].  The three shares are
    read from [capacities_dict] on lines 54-56, in this order, and again on
    lines 63-65, where the lookups can no longer fail. *)
Definition first_pass (df_cf_period : list Row) (capacities_dict : gmap string Q)
    (nuclear_fraction : Q) : result Scenario :=
  let total_load_energy := series_sum (map Load df_cf_period) in
  let nuclear_generation_needed := nuclear_fraction * total_load_energy in
  let nuclear_cf_sum := series_sum (map Nuclear df_cf_period) in
  let nuclear_installed :=
    if Qltb 0 nuclear_cf_sum then nuclear_generation_needed / nuclear_cf_sum else 0 in
  let renewable_generation_needed := (1 - nuclear_fraction) * total_load_energy in
  let! w_solar := getitem capacities_dict "Solar" in
  let! w_onshore := getitem capacities_dict "Wind onshore" in
  let! w_offshore := getitem capacities_dict "Wind offshore" in
  let renewable_cf_weighted :=
    w_solar * series_sum (map Solar df_cf_period) +
    w_onshore * series_sum (map Wind_onshore df_cf_period) +
    w_offshore * series_sum (map Wind_offshore df_cf_period) in
  let C :=
    if Qltb 0 renewable_cf_weighted
    then renewable_generation_needed / renewable_cf_weighted else 0 in
  let solar_installed := w_solar * C in
  let wind_onshore_installed := w_onshore * C in
  let wind_offshore_installed := w_offshore * C in
  let installed_capacity :=
    {| inst_Nuclear := nuclear_installed;
       inst_Wind_offshore := wind_offshore_installed;
       inst_Wind_onshore := wind_onshore_installed;
       inst_Solar := solar_installed |} in
  let df_ := map (power_profile installed_capacity) df_cf_period in
  let load := map Load df_cf_period in
  let bess := zip_with Qminus (map row_sum df_) load in
  let peak_surplus := series_max (map (clip_lower 0) bess) in
  let peak_deficit := series_max (map (fun b => - clip_upper 0 b) bess) in
  let battery_capacity := py_max peak_surplus peak_deficit in
  Ok {| installed_capacity := installed_capacity;
        df_ := zip_with with_storage df_ bess;
        load := load;
        bess := bess;
        battery_capacity := battery_capacity;
        nuclear_fraction := nuclear_fraction |}.

(** The evaluator of the specification: one scenario on one window
    (line 39 and one pass of the loop). *)
Definition evaluate (df_cf : list Row) (capacities_dict : gmap string Q)
    (nuclear_fraction : Q) (start_date end_date : Z) : result Scenario :=
  first_pass (loc df_cf start_date end_date) capacities_dict nuclear_fraction.

(** [create_interactive_energy_plot], with [scenario_data] standing for the
    figure.  The y-axis limits take [max] of a list with one entry per
    scenario, which raises on an empty list of fractions. *)
Definition create_interactive_energy_plot (df_cf : list Row)
    (capacities_dict : gmap string Q) (nuclear_fractions : list Q)
    (start_date end_date : Z)
  : result (list Scenario * list (option Q) * list Installed) :=
  let! scenario_data :=
    mapM (fun nuclear_fraction =>
            evaluate df_cf capacities_dict nuclear_fraction start_date end_date)
         nuclear_fractions in
  match scenario_data with
  | [] => Raise ValueError
  | _ => Ok (scenario_data,
             map battery_capacity scenario_data,
             map installed_capacity scenario_data)
  end.

(** ** The callback *)

(** Lines 9-12. *)
Definition capacities_dict : gmap string Q :=
  {[ "Wind offshore" := 0.11666666666666667;
     "Wind onshore" := 0.24166666666666667;
     "Solar" := 0.6416666666666667;
     "Nuclear" := 0.0 ]}.

(** [df_cf.index.min()] and [df_cf.index.max()], for a table with a row. *)
Definition index_min (df_cf : list Row) : Z :=
  match map ts df_cf with
  | [] => 0
  | t :: index => fold_right Z.min t index
  end.

Definition index_max (df_cf : list Row) : Z :=
  match map ts df_cf with
  | [] => 0
  | t :: index => fold_right Z.max t index
  end.

(** Lines 275-276. *)
Definition min_date (df_cf : list Row) : Z := day (index_min df_cf).
Definition max_date (df_cf : list Row) : Z := day (index_max df_cf).

(** The text outputs of the callback, by content. *)
Inductive Warning : Type :=
| NoWarning
| SelectStartDate                   (* Please select a start date *)
| BeyondData (actual_days : Z)      (* Window extends beyond available data. Limited to .. days. *)
| StartAdjusted (start_str : Z)     (* Start date adjusted to minimum: .. *)
| ErrorMessage (e : exn).           (* Error: .. *)

Inductive Display : Type :=
| NotAvailable
| ErrorDisplay
| MinimumBackup (capacity : option Q).

(** Analyzing: [info_start] to [info_end] ([info_days] days) *)
Record DateInfo : Type := {
  info_start : Z;
  info_end : Z;
  info_days : Z
}.

Record Outputs : Type := {
  figure : option (list Scenario);     (* [None]: the empty [go.Figure()] *)
  warning_message : Warning;
  date_info : option DateInfo;         (* [None]: the empty string *)
  backup_display_1 : Display;
  backup_display_2 : Display;
  donut_1 : option Installed;          (* [None]: [empty_donut] *)
  donut_2 : option Installed
}.

(** [timedelta(days=n)] in hours and [(a - b).days]. *)
Definition timedelta (days : Z) : Z := (days * 24)%Z.
Definition days (delta : Z) : Z := (delta / 24)%Z.

(** Lines 405-476.  [start_date] is the day picked, [None] when none is. *)
Definition update_graph (df_cf : list Row) (start_date : option Z)
    (duration_days nuc1 nuc2 : Z) : Outputs :=
  let nuclear_percentages := [nuc1; nuc2] in
  let nuclear_fractions := map (fun x => inject_Z x / 100) nuclear_percentages in
  match start_date with
  | None =>
      {| figure := None; warning_message := SelectStartDate; date_info := None;
         backup_display_1 := NotAvailable; backup_display_2 := NotAvailable;
         donut_1 := None; donut_2 := None |}
  | Some start_date =>
      let start := to_datetime start_date in
      let end_ := (start + timedelta duration_days)%Z in
      let start_str := day start in
      let end_str := day end_ in
      let '(end_, end_str, warning_message) :=
        if (to_datetime (max_date df_cf) <? end_)%Z
        then let end_ := to_datetime (max_date df_cf) in
             (end_, day end_, BeyondData (days (end_ - start)))
        else (end_, end_str, NoWarning) in
      let '(start, start_str, warning_message) :=
        if (start <? to_datetime (min_date df_cf))%Z
        then let start := to_datetime (min_date df_cf) in
             (start, day start, StartAdjusted (day start))
        else (start, start_str, warning_message) in
      let actual_duration := days (end_ - start) in
      let date_info :=
        {| info_start := start_str; info_end := end_str;
           info_days := actual_duration |} in
      let attempt :=
        let! returned :=
          create_interactive_energy_plot df_cf capacities_dict
            nuclear_fractions start_str end_str in
        let '(fig, battery_capacities, installed_capacities) := returned in
        let! capacity_1 := list_getitem battery_capacities 0 in
        let! capacity_2 := list_getitem battery_capacities 1 in
        let! installed_1 := list_getitem installed_capacities 0 in
        let! installed_2 := list_getitem installed_capacities 1 in
        Ok {| figure := Some fig; warning_message := warning_message;
              date_info := Some date_info;
              backup_display_1 := MinimumBackup capacity_1;
              backup_display_2 := MinimumBackup capacity_2;
              donut_1 := Some installed_1; donut_2 := Some installed_2 |} in
      match attempt with
      | Ok outputs => outputs
      | Raise e =>
          {| figure := None; warning_message := ErrorMessage e;
             date_info := Some date_info;
             backup_display_1 := ErrorDisplay; backup_display_2 := ErrorDisplay;
             donut_1 := None; donut_2 := None |}
      end
  end.

(** ** The expressions of [first_pass], named

    Lines 45-65 and 86 as functions of the sliced frame and of the three
    shares read from the weights. *)
Definition nuclear_installed_of (period : list Row) (fraction : Q) : Q :=
  if Qltb 0 (series_sum (map Nuclear period))
  then fraction * series_sum (map Load period) / series_sum (map Nuclear period)
  else 0.

Definition renewable_cf_weighted_of (period : list Row)
    (w_solar w_onshore w_offshore : Q) : Q :=
  w_solar * series_sum (map Solar period) +
  w_onshore * series_sum (map Wind_onshore period) +
  w_offshore * series_sum (map Wind_offshore period).

Definition C_of (period : list Row) (fraction w_solar w_onshore w_offshore : Q) : Q :=
  if Qltb 0 (renewable_cf_weighted_of period w_solar w_onshore w_offshore)
  then (1 - fraction) * series_sum (map Load period) /
       renewable_cf_weighted_of period w_solar w_onshore w_offshore
  else 0.

Definition installed_of (period : list Row)
    (fraction w_solar w_onshore w_offshore : Q) : Installed :=
  {| inst_Nuclear := nuclear_installed_of period fraction;
     inst_Wind_offshore :=
       w_offshore * C_of period fraction w_solar w_onshore w_offshore;
     inst_Wind_onshore :=
       w_onshore * C_of period fraction w_solar w_onshore w_offshore;
     inst_Solar := w_solar * C_of period fraction w_solar w_onshore w_offshore |}.

Definition bess_row (inst : Installed) (r : Row) : Q :=
  row_sum (power_profile inst r) - Load r.

(** ** The specification's formulas

    Written from the specification's words (section 4.1, steps 2-4 and 9),
    to be compared with what [first_pass] computes. *)
Module Spec.

Definition totalLoadEnergy (slice : list Row) : Q :=
  series_sum (map Load slice).

(** Step 3: zero when the baseload capacity-factor sum is zero. *)
Definition baseloadInstalled (baseloadFraction : Q) (slice : list Row) : Q :=
  let cfSum := series_sum (map Nuclear slice) in
  if Qeq_bool cfSum 0 then 0
  else baseloadFraction * totalLoadEnergy slice / cfSum.

(** Step 4, with the three renewable technologies of the program. *)
Definition weightedCF (wSolar wOnshore wOffshore : Q) (slice : list Row) : Q :=
  wSolar * series_sum (map Solar slice) +
  wOnshore * series_sum (map Wind_onshore slice) +
  wOffshore * series_sum (map Wind_offshore slice).

Definition renewableCapacity (baseloadFraction wSolar wOnshore wOffshore : Q)
    (slice : list Row) : Q :=
  let renewableEnergyNeeded := (1 - baseloadFraction) * totalLoadEnergy slice in
  let wcf := weightedCF wSolar wOnshore wOffshore slice in
  if Qeq_bool wcf 0 then 0 else renewableEnergyNeeded / wcf.

(** [m] is the maximum of the series [s]. *)
Definition is_maximum (m : Q) (s : list Q) : Prop :=
  Exists (fun x => x == m) s /\ Forall (fun x => x <= m) s.

End Spec.

(** ** Well-formed inputs *)

(** The data-model invariant of the table: every capacity factor lies in
    [0,1] and the load is not negative. *)
Definition fractional (x : Q) : bool := Qle_bool 0 x && Qle_bool x 1.

Definition valid_row (r : Row) : bool :=
  fractional (Nuclear r) && fractional (Solar r) &&
  fractional (Wind_onshore r) && fractional (Wind_offshore r) &&
  Qle_bool 0 (Load r).

Definition valid_table (df_cf : list Row) : bool :=
  is_monotonic_increasing (map ts df_cf) && forallb valid_row df_cf.

(** The three shares [first_pass] reads from the weights. *)
Definition has_shares (w : gmap string Q) (w_solar w_onshore w_offshore : Q) : Prop :=
  w !! "Solar" = Some w_solar /\
  w !! "Wind onshore" = Some w_onshore /\
  w !! "Wind offshore" = Some w_offshore.



(** The table of the specification's worked example: four hourly rows of one
    day, no wind. *)
Definition example_table : list Row :=
  [ {| ts := 0; Load := 100; Nuclear := 1; Solar := 0;
       Wind_onshore := 0; Wind_offshore := 0 |};
    {| ts := 1; Load := 100; Nuclear := 1; Solar := 0.5;
       Wind_onshore := 0; Wind_offshore := 0 |};
    {| ts := 2; Load := 100; Nuclear := 1; Solar := 1;
       Wind_onshore := 0; Wind_offshore := 0 |};
    {| ts := 3; Load := 100; Nuclear := 1; Solar := 0.5;
       Wind_onshore := 0; Wind_offshore := 0 |} ].

Definition example_weights : gmap string Q :=
  {[ "Solar" := 1; "Wind onshore" := 0; "Wind offshore" := 0 ]}.

(** ** The figure

    Lines 103-240 of [create_interactive_energy_plot], as a function of
    [scenario_data]: the y-axis limits, the traces added to the subplots and
    the layout.  Subplot titles and hover templates are left out. *)

(** [Series.min()]: NaN on the empty series. *)
Fixpoint series_min (s : list Q) : option Q :=
  match s with
  | [] => None
  | x :: s' =>
      match series_min s' with
      | None => Some x
      | Some m => Some (if Qltb m x then m else x)
      end
  end.

(** Python's builtin [min(a, b)]: [b] when [b < a], else [a]. *)
Definition py_min (a b : option Q) : option Q :=
  match a, b with
  | Some x, Some y => if Qltb y x then b else a
  | _, _ => a
  end.

(** [max(l)] and [min(l)] on a Python list: the first item, replaced by each
    later item that compares greater (smaller); [ValueError] on []. *)
Definition py_max_list (l : list (option Q)) : result (option Q) :=
  match l with
  | [] => Raise ValueError
  | a :: l' => Ok (fold_left py_max l' a)
  end.

Definition py_min_list (l : list (option Q)) : result (option Q) :=
  match l with
  | [] => Raise ValueError
  | a :: l' => Ok (fold_left py_min l' a)
  end.

(** Arithmetic on values that may be NaN. *)
Definition nan_lift (op : Q -> Q -> Q) (a b : option Q) : option Q :=
  match a, b with
  | Some x, Some y => Some (op x y)
  | _, _ => None
  end.

(** Lines 111-117 and 121-123, for one scenario. *)
Definition max_positive (data : Scenario) : option Q :=
  let positive_generation :=
    map (fun p => gen_Nuclear (generation p) + gen_Wind_offshore (generation p) +
                  gen_Wind_onshore (generation p) + gen_Solar (generation p))
        (df_ data) in
  series_max positive_generation.

Definition min_negative (data : Scenario) : option Q :=
  let min_storage_potential := series_min (map Storage_potential (df_ data)) in
  let min_consumption :=
    series_min (map Storage_consumption_requirement (df_ data)) in
  py_min min_storage_potential min_consumption.

(** Lines 103-133: [(final_y_min, final_y_max)]. *)
Definition y_axis_limits (scenario_data : list Scenario)
  : result (option Q * option Q) :=
  let all_max_positive := map max_positive scenario_data in
  let all_min_negative := map min_negative scenario_data in
  let! y_max := py_max_list all_max_positive in
  let! y_min := py_min_list all_min_negative in
  let y_range := nan_lift Qminus y_max y_min in
  let padding := nan_lift Qmult y_range (Some 0.1) in
  let final_y_min := nan_lift Qminus y_min padding in
  let final_y_max := nan_lift Qplus y_max padding in
  Ok (final_y_min, final_y_max).

(** Lines 14-22. *)
Definition colors : gmap string string :=
  {[ "Nuclear" := "#9B59B6";
     "Wind offshore" := "#4A90E2";
     "Wind onshore" := "#7CB9E8";
     "Solar" := "#FDB813";
     "Storage potential" := "#2ECC71";
     "Storage consumption requirement" := "#E74C3C";
     "Load" := "k" ]}.










(** ** The donut *)

(** [installed_capacity.items()], in the order of lines 68-73. *)
Definition installed_items (installed_capacity : Installed) : list (string * Q) :=
  [ ("Nuclear", inst_Nuclear installed_capacity);
    ("Wind offshore", inst_Wind_offshore installed_capacity);
    ("Wind onshore", inst_Wind_onshore installed_capacity);
    ("Solar", inst_Solar installed_capacity) ].

Record Donut : Type := {
  labels : list string;
  values : list Q;
  chart_colors : list string;
  total_capacity : Q                       (* the annotation, before formatting *)
}.

(** Lines 245-271. *)
Definition create_capacity_donut (installed_capacity : Installed)
    (colors : gmap string string) : Donut :=
  let labels := map fst (installed_items installed_capacity) in
  let values := map snd (installed_items installed_capacity) in
  let chart_colors := map (fun label => default "#999999" (colors !! label)) labels in
  {| labels := labels; values := values; chart_colors := chart_colors;
     total_capacity := fold_left Qplus values 0 |}.

(** Lines 91-93 as a function of the series [bess]. *)
Definition battery_of (bess : list Q) : option Q :=
  py_max (series_max (map (clip_lower 0) bess))
         (series_max (map (fun b => - clip_upper 0 b) bess)).

(** A scenario whose frame has a row and whose storage columns have the signs
    of [with_storage]. *)
Definition plotted (sc : Scenario) : Prop :=
  df_ sc <> [] /\
  Forall (fun p => Storage_potential p <= 0 /\
                   0 <= Storage_consumption_requirement p) (df_ sc).

(** ** The same lines on doubles

    Lines 42-86 computed on binary64 floats, as the program does, for the
    properties that rounding decides. *)










(** * Properties *)

(** ** Comparisons and series *)

Lemma Qltb_lt (x y : Q) : Qltb x y = true <-> x < y.
Proof.
  unfold Qltb. rewrite negb_true_iff, <- not_true_iff_false, Qle_bool_iff.
  split; [apply Qnot_le_lt | apply Qlt_not_le].
Qed.

Lemma Qltb_ge (x y : Q) : Qltb x y = false <-> y <= x.
Proof.
  unfold Qltb. rewrite negb_false_iff, Qle_bool_iff. reflexivity.
Qed.

Lemma clip_lower_spec (x : Q) : clip_lower 0 x == Qmax x 0.
Proof.
  unfold clip_lower. destruct (Qltb x 0) eqn:E.
  - apply Qltb_lt in E. rewrite Q.max_r by lra. reflexivity.
  - apply Qltb_ge in E. rewrite Q.max_l by lra. reflexivity.
Qed.

Lemma clip_upper_spec (x : Q) : clip_upper 0 x == Qmin x 0.
Proof.
  unfold clip_upper. destruct (Qltb 0 x) eqn:E.
  - apply Qltb_lt in E. rewrite Q.min_r by lra. reflexivity.
  - apply Qltb_ge in E. rewrite Q.min_l by lra. reflexivity.
Qed.

Lemma clip_lower_cases (x : Q) :
  (x < 0 /\ clip_lower 0 x = 0) \/ (0 <= x /\ clip_lower 0 x = x).
Proof.
  unfold clip_lower. destruct (Qltb x 0) eqn:E.
  - left. apply Qltb_lt in E. auto.
  - right. apply Qltb_ge in E. auto.
Qed.

Lemma clip_upper_cases (x : Q) :
  (0 < x /\ clip_upper 0 x = 0) \/ (x <= 0 /\ clip_upper 0 x = x).
Proof.
  unfold clip_upper. destruct (Qltb 0 x) eqn:E.
  - left. apply Qltb_lt in E. auto.
  - right. apply Qltb_ge in E. auto.
Qed.

Lemma zip_with_map_same {A B C D} (f : B -> C -> D) (g : A -> B) (h : A -> C)
    (l : list A) :
  zip_with f (map g l) (map h l) = map (fun a => f (g a) (h a)) l.
Proof.
  induction l as [|a l IH]; simpl; [reflexivity | now rewrite IH].
Qed.

Lemma map_lookup {A B} (f : A -> B) (l : list A) (i : nat) :
  map f l !! i = option_map f (l !! i).
Proof.
  revert i. induction l as [|a l IH]; intros [|i]; simpl; auto.
Qed.

(** ** What [first_pass] returns *)

Lemma first_pass_shares (period : list Row) (w : gmap string Q)
    (fraction w_solar w_onshore w_offshore : Q) :
  has_shares w w_solar w_onshore w_offshore ->
  let inst := installed_of period fraction w_solar w_onshore w_offshore in
  first_pass period w fraction =
  Ok {| installed_capacity := inst;
        df_ := map (fun r => with_storage (power_profile inst r) (bess_row inst r))
                   period;
        load := map Load period;
        bess := map (bess_row inst) period;
        battery_capacity :=
          py_max (series_max (map (clip_lower 0) (map (bess_row inst) period)))
                 (series_max (map (fun b => - clip_upper 0 b)
                                  (map (bess_row inst) period)));
        nuclear_fraction := fraction |}.
Proof.
  intros (Hs & Hon & Hoff) inst.
  unfold first_pass, getitem. rewrite Hs, Hon, Hoff. cbn [bind].
  rewrite map_map.
  rewrite (zip_with_map_same Qminus (fun r => row_sum (power_profile _ r)) Load).
  rewrite (zip_with_map_same with_storage).
  reflexivity.
Qed.

Lemma first_pass_missing (period : list Row) (w : gmap string Q) (fraction : Q) :
  w !! "Solar" = None ->
  first_pass period w fraction = Raise (KeyError "Solar").
Proof.
  intros H. unfold first_pass, getitem. now rewrite H.
Qed.

(** ** Hour by hour *)

(** C3. For every sliced window and every hour [i] of it, with row [r] of the
    table, the net balance [bess[i]] is the sum over the four technologies
    (nuclear and the three renewables) of capacity factor times installed
    capacity, minus the load of that hour; it is also the row sum of the
    generation columns stored in [df_] minus the stored load. *)
Theorem C3_net_balance (df_cf : list Row) (w : gmap string Q)
    (fraction w_solar w_onshore w_offshore : Q) (start_date end_date : Z) :
  is_monotonic_increasing (map ts df_cf) = true ->
  has_shares w w_solar w_onshore w_offshore ->
  exists sc,
    evaluate df_cf w fraction start_date end_date = Ok sc /\
    length (bess sc) = length (loc df_cf start_date end_date) /\
    forall (i : nat) (r : Row),
      loc df_cf start_date end_date !! i = Some r ->
      let inst := installed_capacity sc in
      bess sc !! i =
        Some (Nuclear r * inst_Nuclear inst +
              Wind_offshore r * inst_Wind_offshore inst +
              Wind_onshore r * inst_Wind_onshore inst +
              Solar r * inst_Solar inst - Load r) /\
      exists p,
        df_ sc !! i = Some p /\
        load sc !! i = Some (Load r) /\
        generation p = power_profile inst r /\
        bess sc !! i = Some (row_sum (generation p) - Load r).
Proof.
  intros _ Hw. unfold evaluate.
  rewrite (first_pass_shares _ _ _ _ _ _ Hw). cbn zeta.
  eexists. split; [reflexivity |]. cbn [bess df_ load installed_capacity].
  split; [apply length_map |].
  intros i r Hr. rewrite !map_lookup, Hr. cbn [option_map].
  split; [reflexivity |].
  eexists. split; [reflexivity |]. auto.
Qed.

Example C3_net_balance_witness :
  exists sc,
    evaluate example_table example_weights 0.5 0 0 = Ok sc /\
    bess sc !! 2%nat = Some (1 * inst_Nuclear (installed_capacity sc) +
                             0 * inst_Wind_offshore (installed_capacity sc) +
                             0 * inst_Wind_onshore (installed_capacity sc) +
                             1 * inst_Solar (installed_capacity sc) - 100).
Proof.
  destruct (C3_net_balance example_table example_weights 0.5 1 0 0 0 0)
    as (sc & Hev & _ & H); [reflexivity | repeat split |].
  exists sc. split; [exact Hev |].
  exact (proj1 (H 2%nat _ eq_refl)).
Defined.

(** The two storage columns of one hour, from the net balance [b]. *)
Lemma storage_columns (g : Generation) (b : Q) :
  Storage_potential (with_storage g b) <= 0 /\
  0 <= Storage_consumption_requirement (with_storage g b) /\
  Storage_potential (with_storage g b) +
    Storage_consumption_requirement (with_storage g b) == - b /\
  (Storage_potential (with_storage g b) == 0 \/
   Storage_consumption_requirement (with_storage g b) == 0).
Proof.
  cbn [with_storage Storage_potential Storage_consumption_requirement].
  destruct (clip_lower_cases b) as [[Hb ->] | [Hb ->]],
           (clip_upper_cases b) as [[Hb' ->] | [Hb' ->]];
    repeat split; try lra; (left; lra) || (right; lra).
Qed.




(** ** Maxima *)

Lemma elem_of_map {A B} (f : A -> B) (l : list A) (y : B) :
  y ∈ map f l <-> exists a, f a = y /\ a ∈ l.
Proof.
  rewrite list_elem_of_In, in_map_iff.
  split; intros (a & Ha & Hin); exists a; split; auto; now apply list_elem_of_In.
Qed.

Lemma series_max_nonempty (s : list Q) :
  s <> [] -> exists m, series_max s = Some m.
Proof.
  destruct s as [|x s]; [congruence |]. intros _. cbn [series_max].
  destruct (series_max s); eauto.
Qed.

Lemma series_max_is_maximum (s : list Q) (m : Q) :
  series_max s = Some m -> Spec.is_maximum m s.
Proof.
  revert m. induction s as [|x s IH]; intros m; cbn [series_max]; [discriminate |].
  destruct (series_max s) as [m'|] eqn:E.
  - destruct (IH m' eq_refl) as [Hex Hall]. intros [= <-].
    destruct (Qltb x m') eqn:Hlt.
    + apply Qltb_lt in Hlt. split.
      * now apply Exists_cons_tl.
      * constructor; [lra | exact Hall].
    + apply Qltb_ge in Hlt. split.
      * apply Exists_cons_hd. reflexivity.
      * constructor; [lra |].
        eapply Forall_impl; [exact Hall |]. cbv beta. intros y Hy. lra.
  - destruct s as [|y s]; [| cbn in E; destruct (series_max s); discriminate].
    intros [= <-]. split.
    + apply Exists_cons_hd. reflexivity.
    + constructor; [lra | constructor].
Qed.

Lemma is_maximum_map_ext {A} (f g : A -> Q) (l : list A) (m : Q) :
  (forall a, f a == g a) ->
  Spec.is_maximum m (map f l) -> Spec.is_maximum m (map g l).
Proof.
  intros Hfg [Hex Hall]. split.
  - apply Exists_exists in Hex as (x & Hin & Hx).
    apply elem_of_map in Hin as (a & <- & Hin).
    apply Exists_exists. exists (g a). split.
    + apply elem_of_map. eauto.
    + now rewrite <- Hfg.
  - apply Forall_forall. intros x Hin.
    apply elem_of_map in Hin as (a & <- & Hin).
    rewrite Forall_forall in Hall. rewrite <- Hfg. apply Hall.
    apply elem_of_map. eauto.
Qed.

Lemma py_max_spec (x y : Q) :
  exists v, py_max (Some x) (Some y) = Some v /\ v == Qmax x y.
Proof.
  cbn [py_max]. destruct (Qltb x y) eqn:E.
  - apply Qltb_lt in E. exists y. split; [reflexivity |].
    rewrite Q.max_r by lra. reflexivity.
  - apply Qltb_ge in E. exists x. split; [reflexivity |].
    rewrite Q.max_l by lra. reflexivity.
Qed.

Lemma deficit_spec (b : Q) : - clip_upper 0 b == Qmax (- b) 0.
Proof.
  destruct (clip_upper_cases b) as [[Hb ->] | [Hb ->]].
  - rewrite Q.max_r by lra. lra.
  - rewrite Q.max_l by lra. lra.
Qed.



(** ** Sums over the window *)

Lemma series_sum_nonneg {A} (f : A -> Q) (l : list A) :
  Forall (fun a => 0 <= f a) l -> 0 <= series_sum (map f l).
Proof.
  induction 1 as [|a l Ha _ IH]; cbn [map series_sum fold_right].
  - lra.
  - change (0 <= f a + series_sum (map f l)). lra.
Qed.




(** ** Rows of a well-formed table *)

Lemma fractional_bounds (x : Q) : fractional x = true -> 0 <= x <= 1.
Proof.
  unfold fractional. rewrite andb_true_iff, !Qle_bool_iff. auto.
Qed.

Lemma valid_row_bounds (r : Row) :
  valid_row r = true ->
  0 <= Nuclear r /\ 0 <= Solar r /\ 0 <= Wind_onshore r /\
  0 <= Wind_offshore r /\ 0 <= Load r.
Proof.
  unfold valid_row. rewrite !andb_true_iff, Qle_bool_iff.
  intros ((((Hn & Hs) & Hon) & Hoff) & Hl).
  apply fractional_bounds in Hn, Hs, Hon, Hoff. repeat split; tauto.
Qed.

Lemma valid_table_loc (df_cf : list Row) (start_date end_date : Z) :
  valid_table df_cf = true ->
  Forall (fun r => valid_row r = true) (loc df_cf start_date end_date).
Proof.
  unfold valid_table. rewrite andb_true_iff, forallb_forall.
  intros [_ H]. apply Forall_forall. intros r Hr.
  apply H, list_elem_of_In. unfold loc in Hr.
  now apply list_elem_of_filter in Hr as [_ Hr].
Qed.

Lemma valid_sums (period : list Row) :
  Forall (fun r => valid_row r = true) period ->
  0 <= series_sum (map Nuclear period) /\
  0 <= series_sum (map Solar period) /\
  0 <= series_sum (map Wind_onshore period) /\
  0 <= series_sum (map Wind_offshore period).
Proof.
  intros H. repeat split; apply series_sum_nonneg;
    (eapply Forall_impl; [exact H |]); cbv beta; intros r Hr;
    apply valid_row_bounds in Hr; tauto.
Qed.

(** ** Installed capacities *)

Lemma Qeq_bool_false (x y : Q) : Qeq_bool x y = false -> ~ x == y.
Proof.
  intros H Hxy. apply Qeq_bool_iff in Hxy. congruence.
Qed.

Lemma nuclear_installed_spec (period : list Row) (fraction : Q) :
  0 <= series_sum (map Nuclear period) ->
  nuclear_installed_of period fraction == Spec.baseloadInstalled fraction period.
Proof.
  intros Hpos. unfold nuclear_installed_of, Spec.baseloadInstalled, Spec.totalLoadEnergy.
  cbv zeta.
  destruct (Qeq_bool (series_sum (map Nuclear period)) 0) eqn:Hz.
  - apply Qeq_bool_iff in Hz.
    replace (Qltb 0 (series_sum (map Nuclear period))) with false; [reflexivity |].
    symmetry. apply Qltb_ge. lra.
  - apply Qeq_bool_false in Hz.
    replace (Qltb 0 (series_sum (map Nuclear period))) with true; [reflexivity |].
    symmetry. apply Qltb_lt. lra.
Qed.

Lemma weighted_nonneg (period : list Row) (w_solar w_onshore w_offshore : Q) :
  Forall (fun r => valid_row r = true) period ->
  0 <= w_solar -> 0 <= w_onshore -> 0 <= w_offshore ->
  0 <= renewable_cf_weighted_of period w_solar w_onshore w_offshore.
Proof.
  intros Hv Hs Hon Hoff. destruct (valid_sums period Hv) as (_ & H1 & H2 & H3).
  unfold renewable_cf_weighted_of.
  pose proof (Qmult_le_0_compat _ _ Hs H1).
  pose proof (Qmult_le_0_compat _ _ Hon H2).
  pose proof (Qmult_le_0_compat _ _ Hoff H3).
  lra.
Qed.

Lemma C_spec (period : list Row) (fraction w_solar w_onshore w_offshore : Q) :
  0 <= renewable_cf_weighted_of period w_solar w_onshore w_offshore ->
  C_of period fraction w_solar w_onshore w_offshore ==
  Spec.renewableCapacity fraction w_solar w_onshore w_offshore period.
Proof.
  intros Hpos. unfold C_of, Spec.renewableCapacity, Spec.totalLoadEnergy.
  cbv zeta.
  change (Spec.weightedCF w_solar w_onshore w_offshore period)
    with (renewable_cf_weighted_of period w_solar w_onshore w_offshore).
  destruct (Qeq_bool (renewable_cf_weighted_of period w_solar w_onshore w_offshore) 0)
    eqn:Hz.
  - apply Qeq_bool_iff in Hz.
    replace (Qltb 0 (renewable_cf_weighted_of period w_solar w_onshore w_offshore))
      with false; [reflexivity |].
    symmetry. apply Qltb_ge. lra.
  - apply Qeq_bool_false in Hz.
    replace (Qltb 0 (renewable_cf_weighted_of period w_solar w_onshore w_offshore))
      with true; [reflexivity |].
    symmetry. apply Qltb_lt. lra.
Qed.

(** C1. On a well-formed table (capacity factors in [0,1], load not
    negative) and with shares that are not negative, for every sliced window:
    the installed nuclear capacity is [baseloadFraction * totalLoadEnergy]
    divided by the sum of the nuclear capacity factor over the slice, and zero
    when that sum is zero; the installed capacity of each renewable technology
    is its share times [C], where [C] is
    [(1 - baseloadFraction) * totalLoadEnergy / weightedCF], and zero when
    [weightedCF] is zero. *)
Theorem C1_installed_capacities (df_cf : list Row) (w : gmap string Q)
    (fraction w_solar w_onshore w_offshore : Q) (start_date end_date : Z) :
  valid_table df_cf = true ->
  has_shares w w_solar w_onshore w_offshore ->
  0 <= w_solar -> 0 <= w_onshore -> 0 <= w_offshore ->
  exists sc,
    evaluate df_cf w fraction start_date end_date = Ok sc /\
    let slice := loc df_cf start_date end_date in
    let C := Spec.renewableCapacity fraction w_solar w_onshore w_offshore slice in
    inst_Nuclear (installed_capacity sc) == Spec.baseloadInstalled fraction slice /\
    inst_Solar (installed_capacity sc) == w_solar * C /\
    inst_Wind_onshore (installed_capacity sc) == w_onshore * C /\
    inst_Wind_offshore (installed_capacity sc) == w_offshore * C.
Proof.
  intros Hv Hw Hs Hon Hoff. unfold evaluate.
  rewrite (first_pass_shares _ _ _ _ _ _ Hw). cbn zeta.
  eexists. split; [reflexivity |].
  cbn [installed_capacity installed_of inst_Nuclear inst_Solar inst_Wind_onshore
       inst_Wind_offshore].
  pose proof (valid_table_loc df_cf start_date end_date Hv) as Hrows.
  pose proof (weighted_nonneg _ _ _ _ Hrows Hs Hon Hoff) as Hwcf.
  destruct (valid_sums _ Hrows) as (Hn & _).
  split; [now apply nuclear_installed_spec |].
  rewrite (C_spec _ fraction _ _ _ Hwcf). repeat split; reflexivity.
Qed.

Example C1_installed_capacities_witness :
  exists sc,
    evaluate example_table example_weights 0.5 0 0 = Ok sc /\
    inst_Nuclear (installed_capacity sc) ==
      Spec.baseloadInstalled 0.5 (loc example_table 0 0).
Proof.
  destruct (C1_installed_capacities example_table example_weights 0.5 1 0 0 0 0)
    as (sc & Hev & Hn & _);
    [reflexivity | repeat split | vm_compute; discriminate
    | vm_compute; discriminate | vm_compute; discriminate |].
  exists sc. split; [exact Hev | exact Hn].
Defined.

(** ** Energy balance *)






(** ** Scaling the capacity factors *)











(** ** The worked example *)

(** C4. On the four-row table with load 100 every hour, solar capacity
    factors 0, 0.5, 1, 0.5, nuclear capacity factor 1, solar share 1 (both
    wind shares and wind capacity factors 0) and nuclear fraction 0.5, over
    the day that holds the four rows: installed nuclear capacity 50, installed
    solar capacity 100, hourly generation totals 50, 100, 150, 100, net
    balance -50, 0, 50, 0 and backup capacity 50. *)
Theorem C4_worked_example :
  loc example_table 0 0 = example_table /\
  exists sc v,
    evaluate example_table example_weights 0.5 0 0 = Ok sc /\
    inst_Nuclear (installed_capacity sc) == 50 /\
    inst_Solar (installed_capacity sc) == 100 /\
    Forall2 Qeq (map (fun p => row_sum (generation p)) (df_ sc))
                [50; 100; 150; 100] /\
    Forall2 Qeq (bess sc) [-50; 0; 50; 0] /\
    battery_capacity sc = Some v /\ v == 50.
Proof.
  split; [vm_compute; reflexivity |].
  destruct (evaluate example_table example_weights 0.5 0 0) as [sc|e] eqn:Hev;
    vm_compute in Hev; [| discriminate Hev].
  injection Hev as <-.
  eexists _, _. split; [reflexivity |].
  cbn [installed_capacity inst_Nuclear inst_Solar df_ bess battery_capacity].
  split; [vm_compute; reflexivity |].
  split; [vm_compute; reflexivity |].
  split; [repeat constructor; vm_compute; reflexivity |].
  split; [repeat constructor; vm_compute; reflexivity |].
  split; [reflexivity |]. vm_compute. reflexivity.
Qed.

(** ** Empty windows *)

Lemma loc_reversed (df_cf : list Row) (start_date end_date : Z) :
  (end_date < start_date)%Z -> loc df_cf start_date end_date = [].
Proof.
  intros Hlt. unfold loc. induction df_cf as [|r df_cf IH]; [reflexivity |].
  rewrite filter_cons. destruct (decide _) as [H|_]; [lia | exact IH].
Qed.

Lemma loc_outside (df_cf : list Row) (start_date end_date : Z) :
  Forall (fun r => (day (ts r) < start_date \/ end_date < day (ts r))%Z) df_cf ->
  loc df_cf start_date end_date = [].
Proof.
  unfold loc. induction 1 as [|r df_cf Hr _ IH]; [reflexivity |].
  rewrite filter_cons. destruct (decide _) as [H|_]; [lia | exact IH].
Qed.

Lemma C_of_empty (fraction w_solar w_onshore w_offshore : Q) :
  C_of [] fraction w_solar w_onshore w_offshore = 0.
Proof.
  unfold C_of.
  replace (Qltb 0 (renewable_cf_weighted_of [] w_solar w_onshore w_offshore))
    with false; [reflexivity |].
  symmetry. apply Qltb_ge. unfold renewable_cf_weighted_of.
  cbn [map series_sum fold_right]. lra.
Qed.

(** C5, as the program has it. When the start is after the end, when no row
    of the table falls in the window, or whenever the slice has no row, the
    evaluator raises nothing: it returns a scenario with installed capacity
    zero for the four technologies, empty hourly series and a NaN backup
    capacity. *)
Theorem C5_empty_window (df_cf : list Row) (w : gmap string Q)
    (fraction w_solar w_onshore w_offshore : Q) (start_date end_date : Z) :
  is_monotonic_increasing (map ts df_cf) = true ->
  has_shares w w_solar w_onshore w_offshore ->
  (end_date < start_date)%Z \/
  Forall (fun r => (day (ts r) < start_date \/ end_date < day (ts r))%Z) df_cf \/
  loc df_cf start_date end_date = [] ->
  exists sc,
    evaluate df_cf w fraction start_date end_date = Ok sc /\
    inst_Nuclear (installed_capacity sc) == 0 /\
    inst_Wind_offshore (installed_capacity sc) == 0 /\
    inst_Wind_onshore (installed_capacity sc) == 0 /\
    inst_Solar (installed_capacity sc) == 0 /\
    df_ sc = [] /\ load sc = [] /\ bess sc = [] /\
    battery_capacity sc = None.
Proof.
  intros _ Hw Hwin.
  assert (Hempty : loc df_cf start_date end_date = []).
  { destruct Hwin as [H | [H | H]];
      [now apply loc_reversed | now apply loc_outside | exact H]. }
  unfold evaluate. rewrite Hempty, (first_pass_shares _ _ _ _ _ _ Hw). cbn zeta.
  eexists. split; [reflexivity |].
  cbn [installed_capacity installed_of inst_Nuclear inst_Wind_offshore
       inst_Wind_onshore inst_Solar df_ load bess battery_capacity map
       series_max py_max].
  rewrite C_of_empty.
  split; [reflexivity |]. repeat split; ring.
Qed.

Example C5_empty_window_witness :
  exists sc,
    evaluate example_table example_weights 0.5 1 0 = Ok sc /\
    battery_capacity sc = None.
Proof.
  destruct (C5_empty_window example_table example_weights 0.5 1 0 0 1 0)
    as (sc & Hev & _ & _ & _ & _ & _ & _ & _ & Hb);
    [reflexivity | repeat split | left; lia |].
  exists sc. split; [exact Hev | exact Hb].
Defined.

(** C5 as stated fails: with the start after the end, and with a window that
    misses the index, the slice has no row and the evaluator returns a
    scenario (zero installed capacities, NaN backup capacity); so does
    [create_interactive_energy_plot]. Nothing is raised. *)
Example C5_counterexample :
  let nothing :=
    {| installed_capacity :=
         {| inst_Nuclear := 0; inst_Wind_offshore := 0;
            inst_Wind_onshore := 0; inst_Solar := 0 |};
       df_ := []; load := []; bess := [];
       battery_capacity := None; nuclear_fraction := 0.5 |} in
  loc example_table 1 0 = [] /\
  evaluate example_table example_weights 0.5 1 0 = Ok nothing /\
  loc example_table 5 9 = [] /\
  evaluate example_table example_weights 0.5 5 9 = Ok nothing /\
  create_interactive_energy_plot example_table example_weights [0.5] 1 0 =
    Ok ([nothing], [None], [installed_capacity nothing]) /\
  ~ exists e, evaluate example_table example_weights 0.5 1 0 = Raise e.
Proof.
  cbv zeta. do 5 (split; [reflexivity |]).
  intros [e He]. discriminate He.
Qed.

(** ** The clipped window *)

Lemma day_to_datetime (d : Z) : day (to_datetime d) = d.
Proof.
  unfold day, to_datetime. apply Z.div_mul. lia.
Qed.

Lemma days_between (d d' : Z) : days (to_datetime d - to_datetime d') = (d - d')%Z.
Proof.
  unfold days, to_datetime.
  replace (d * 24 - d' * 24)%Z with ((d - d') * 24)%Z by lia.
  apply Z.div_mul. lia.
Qed.

Lemma to_datetime_day_le (t : Z) : (to_datetime (day t) <= t)%Z.
Proof.
  unfold day, to_datetime. pose proof (Z.mul_div_le t 24). lia.
Qed.

Lemma fold_max_spec (t : Z) (index : list Z) :
  (fold_right Z.max t index = t \/ fold_right Z.max t index ∈ index) /\
  (t <= fold_right Z.max t index)%Z /\
  Forall (fun t' => (t' <= fold_right Z.max t index)%Z) index.
Proof.
  induction index as [|t' index (Hin & Hle & Hall)]; cbn [fold_right].
  - split; [now left |]. split; [lia | constructor].
  - split; [| split].
    + destruct (Z.max_spec t' (fold_right Z.max t index)) as [[_ ->] | [_ ->]].
      * destruct Hin as [-> | Hin]; [now left | right; now apply list_elem_of_further].
      * right. apply list_elem_of_here.
    + lia.
    + constructor; [lia |]. eapply Forall_impl; [exact Hall |].
      cbv beta. intros; lia.
Qed.

Lemma index_max_spec (df_cf : list Row) :
  df_cf <> [] ->
  (exists r, r ∈ df_cf /\ ts r = index_max df_cf) /\
  Forall (fun r => (ts r <= index_max df_cf)%Z) df_cf.
Proof.
  destruct df_cf as [|r0 df_cf]; [congruence |]. intros _.
  unfold index_max. cbn [map].
  destruct (fold_max_spec (ts r0) (map ts df_cf)) as (Hin & Hle & Hall). split.
  - destruct Hin as [Heq | Hin].
    + exists r0. split; [apply list_elem_of_here | now rewrite Heq].
    + apply elem_of_map in Hin as (r & Hr & Hin).
      exists r. split; [now apply list_elem_of_further | exact Hr].
  - constructor; [exact Hle |].
    apply Forall_forall. intros r Hr. rewrite Forall_forall in Hall.
    apply Hall, elem_of_map. eauto.
Qed.

Lemma capacities_dict_shares :
  has_shares capacities_dict 0.6416666666666667 0.24166666666666667
             0.11666666666666667.
Proof.
  repeat split.
Qed.

Lemma battery_capacity_number (bs : list Q) :
  bs <> [] ->
  exists v,
    py_max (series_max (map (clip_lower 0) bs))
           (series_max (map (fun b => - clip_upper 0 b) bs)) = Some v.
Proof.
  intros Hbs.
  destruct (series_max_nonempty (map (clip_lower 0) bs)) as [ps ->];
    [destruct bs; [congruence | discriminate] |].
  destruct (series_max_nonempty (map (fun b => - clip_upper 0 b) bs)) as [pd ->];
    [destruct bs; [congruence | discriminate] |].
  destruct (py_max_spec ps pd) as (v & Hv & _). eauto.
Qed.

Lemma evaluate_number (df_cf : list Row) (fraction : Q) (start_date end_date : Z) :
  loc df_cf start_date end_date <> [] ->
  exists sc v,
    evaluate df_cf capacities_dict fraction start_date end_date = Ok sc /\
    battery_capacity sc = Some v.
Proof.
  intros Hne. unfold evaluate.
  rewrite (first_pass_shares _ _ _ _ _ _ capacities_dict_shares). cbn zeta.
  edestruct (battery_capacity_number
               (map (bess_row (installed_of (loc df_cf start_date end_date) fraction
                                 0.6416666666666667 0.24166666666666667
                                 0.11666666666666667))
                    (loc df_cf start_date end_date))) as [v Hv].
  { destruct (loc df_cf start_date end_date); [congruence | discriminate]. }
  eexists _, v. split; [reflexivity |]. exact Hv.
Qed.

(** C8. For every request whose start day lies within the days of the table
    and whose end (start plus the duration) is past the last timestamp of the
    table, the callback clips the end to the last day of the data and reports
    the clipped window, in the warning and in the date information; the
    window evaluated runs from the start day to the last row of the table, it
    is not empty, and both scenarios are returned with a numeric backup
    capacity. No error output is produced. *)
Theorem C8_window_clipped (df_cf : list Row) (start_date duration_days nuc1 nuc2 : Z) :
  is_monotonic_increasing (map ts df_cf) = true ->
  df_cf <> [] ->
  (min_date df_cf <= start_date <= max_date df_cf)%Z ->
  (index_max df_cf < to_datetime start_date + timedelta duration_days)%Z ->
  exists sc1 sc2 c1 c2,
    evaluate df_cf capacities_dict (inject_Z nuc1 / 100) start_date (max_date df_cf)
      = Ok sc1 /\
    evaluate df_cf capacities_dict (inject_Z nuc2 / 100) start_date (max_date df_cf)
      = Ok sc2 /\
    battery_capacity sc1 = Some c1 /\
    battery_capacity sc2 = Some c2 /\
    update_graph df_cf (Some start_date) duration_days nuc1 nuc2 =
      {| figure := Some [sc1; sc2];
         warning_message := BeyondData (max_date df_cf - start_date);
         date_info :=
           Some {| info_start := start_date; info_end := max_date df_cf;
                   info_days := max_date df_cf - start_date |};
         backup_display_1 := MinimumBackup (Some c1);
         backup_display_2 := MinimumBackup (Some c2);
         donut_1 := Some (installed_capacity sc1);
         donut_2 := Some (installed_capacity sc2) |} /\
    (exists r, r ∈ loc df_cf start_date (max_date df_cf) /\ ts r = index_max df_cf) /\
    (forall r, r ∈ df_cf -> (start_date <= day (ts r))%Z ->
               r ∈ loc df_cf start_date (max_date df_cf)).
Proof.
  intros _ Hne [Hmin Hmax] Hend.
  destruct (index_max_spec df_cf Hne) as ((rl & Hrl & Hts) & Hall).
  assert (Hwindow : forall r, r ∈ df_cf -> (start_date <= day (ts r))%Z ->
                              r ∈ loc df_cf start_date (max_date df_cf)).
  { intros r Hr Hs. unfold loc. apply list_elem_of_filter. split; [| exact Hr].
    split; [exact Hs |]. rewrite Forall_forall in Hall. specialize (Hall r Hr).
    unfold max_date, day. apply Z.div_le_mono; lia. }
  assert (Hlast : rl ∈ loc df_cf start_date (max_date df_cf)).
  { apply Hwindow; [exact Hrl |]. rewrite Hts. exact Hmax. }
  assert (Hslice : loc df_cf start_date (max_date df_cf) <> []).
  { intros E. rewrite E in Hlast. now apply not_elem_of_nil in Hlast. }
  destruct (evaluate_number df_cf (inject_Z nuc1 / 100) _ _ Hslice)
    as (sc1 & c1 & Hev1 & Hc1).
  destruct (evaluate_number df_cf (inject_Z nuc2 / 100) _ _ Hslice)
    as (sc2 & c2 & Hev2 & Hc2).
  exists sc1, sc2, c1, c2.
  do 4 (split; [assumption |]).
  split; [| split; [exists rl; auto | exact Hwindow]].
  unfold update_graph.
  assert (H1 : (to_datetime (max_date df_cf) <?
                to_datetime start_date + timedelta duration_days)%Z = true).
  { apply Z.ltb_lt. pose proof (to_datetime_day_le (index_max df_cf)).
    unfold max_date. lia. }
  assert (H2 : (to_datetime start_date <? to_datetime (min_date df_cf))%Z = false).
  { apply Z.ltb_ge. unfold to_datetime. lia. }
  rewrite H1, H2. cbv beta iota zeta.
  rewrite !day_to_datetime, days_between.
  unfold create_interactive_energy_plot. cbn [map mapM].
  rewrite Hev1, Hev2. cbn [bind map list_getitem lookup list_lookup].
  rewrite Hc1, Hc2. reflexivity.
Qed.

Example C8_window_clipped_witness :
  exists out,
    update_graph example_table (Some 0%Z) 7 0 20 = out /\
    warning_message out = BeyondData 0 /\
    date_info out = Some {| info_start := 0; info_end := 0; info_days := 0 |}.
Proof.
  destruct (C8_window_clipped example_table 0 7 0 20)
    as (sc1 & sc2 & c1 & c2 & _ & _ & _ & _ & Hout & _);
    [reflexivity | discriminate | vm_compute; split; discriminate
    | vm_compute; reflexivity |].
  eexists. split; [reflexivity |]. rewrite Hout. split; reflexivity.
Defined.

(** * Further properties of the program *)

(** ** Errors of the evaluator *)



Lemma mapM_lookup {A B} (f : A -> result B) (l : list A) (bs : list B) :
  mapM f l = Ok bs ->
  length bs = length l /\
  forall (i : nat) (a : A), l !! i = Some a -> exists b, f a = Ok b /\ bs !! i = Some b.
Proof.
  revert bs. induction l as [|a l IH]; intros bs; cbn [mapM].
  - intros [= <-]. split; [reflexivity |]. intros i a H. discriminate.
  - destruct (f a) as [b|e] eqn:Hb; cbn [bind]; [| discriminate].
    destruct (mapM f l) as [bs'|e] eqn:Hbs; cbn [bind]; [| discriminate].
    intros [= <-]. destruct (IH bs' eq_refl) as [Hlen Hall].
    split; [cbn; now rewrite Hlen |].
    intros [|i] a' Ha'; cbn in Ha' |- *.
    + injection Ha' as <-. eauto.
    + now apply Hall.
Qed.

Lemma mapM_evaluate (df_cf : list Row) (w : gmap string Q)
    (w_solar w_onshore w_offshore : Q) (fractions : list Q) (start_date end_date : Z) :
  has_shares w w_solar w_onshore w_offshore ->
  exists sd,
    mapM (fun fraction => evaluate df_cf w fraction start_date end_date) fractions
      = Ok sd.
Proof.
  intros Hw. induction fractions as [|f fractions [sd IH]]; cbn [mapM]; [eauto |].
  unfold evaluate at 1. rewrite (first_pass_shares _ _ _ _ _ _ Hw). cbn zeta.
  cbn [bind]. rewrite IH. cbn [bind]. eauto.
Qed.



(** ** Installed capacities at the edges *)

Lemma Qdiv_nonneg (n d : Q) : 0 <= n -> 0 < d -> 0 <= n / d.
Proof.
  intros Hn Hd. unfold Qdiv. apply Qmult_le_0_compat; [exact Hn |].
  apply Qlt_le_weak, Qinv_lt_0_compat, Hd.
Qed.

Lemma guarded_quotient_nonneg (n d : Q) :
  0 <= n -> 0 <= (if Qltb 0 d then n / d else 0).
Proof.
  intros Hn. destruct (Qltb 0 d) eqn:E; [| lra].
  apply Qltb_lt in E. now apply Qdiv_nonneg.
Qed.

Lemma guarded_quotient_zero (n d : Q) :
  n == 0 -> (if Qltb 0 d then n / d else 0) == 0.
Proof.
  intros Hn. destruct (Qltb 0 d) eqn:E; [| reflexivity].
  apply Qltb_lt in E. rewrite Hn. field. lra.
Qed.

(** X3. With nuclear fraction 0 the installed nuclear capacity is zero, and
    with nuclear fraction 1 the installed capacity of each of the three
    renewables is zero, on every table and window. *)
Theorem fraction_extremes (df_cf : list Row) (w : gmap string Q)
    (w_solar w_onshore w_offshore : Q) (start_date end_date : Z) :
  is_monotonic_increasing (map ts df_cf) = true ->
  has_shares w w_solar w_onshore w_offshore ->
  exists sc0 sc1,
    evaluate df_cf w 0 start_date end_date = Ok sc0 /\
    installed_capacity sc0 =
      installed_of (loc df_cf start_date end_date) 0 w_solar w_onshore w_offshore /\
    inst_Nuclear (installed_capacity sc0) == 0 /\
    evaluate df_cf w 1 start_date end_date = Ok sc1 /\
    installed_capacity sc1 =
      installed_of (loc df_cf start_date end_date) 1 w_solar w_onshore w_offshore /\
    inst_Solar (installed_capacity sc1) == 0 /\
    inst_Wind_onshore (installed_capacity sc1) == 0 /\
    inst_Wind_offshore (installed_capacity sc1) == 0.
Proof.
  intros _ Hw. unfold evaluate.
  rewrite !(first_pass_shares _ _ _ _ _ _ Hw). cbn zeta.
  do 2 eexists. split; [reflexivity |]. split; [reflexivity |].
  cbn [installed_capacity installed_of inst_Nuclear inst_Solar inst_Wind_onshore
       inst_Wind_offshore].
  split; [apply guarded_quotient_zero; ring |].
  split; [reflexivity |]. split; [reflexivity |].
  cbn [installed_capacity installed_of inst_Nuclear inst_Solar inst_Wind_onshore
       inst_Wind_offshore].
  assert (HC : C_of (loc df_cf start_date end_date) 1 w_solar w_onshore w_offshore == 0)
    by (apply guarded_quotient_zero; ring).
  rewrite HC. repeat split; ring.
Qed.

Example fraction_extremes_witness :
  exists sc1,
    evaluate example_table example_weights 1 0 0 = Ok sc1 /\
    inst_Solar (installed_capacity sc1) == 0.
Proof.
  destruct (fraction_extremes example_table example_weights 1 0 0 0 0)
    as (sc0 & sc1 & _ & _ & _ & Hev & _ & Hs & _); [reflexivity | repeat split |].
  exists sc1. split; [exact Hev | exact Hs].
Defined.

Lemma valid_load_sum (period : list Row) :
  Forall (fun r => valid_row r = true) period ->
  0 <= series_sum (map Load period).
Proof.
  intros H. apply series_sum_nonneg.
  eapply Forall_impl; [exact H |]. cbv beta. intros r Hr.
  apply valid_row_bounds in Hr. tauto.
Qed.

(** X4. On a well-formed table, with shares that are not negative and a
    nuclear fraction in [0,1], no installed capacity is negative and no
    technology generates a negative power in any hour of the window. *)
Theorem installed_nonneg (df_cf : list Row) (w : gmap string Q)
    (fraction w_solar w_onshore w_offshore : Q) (start_date end_date : Z) :
  valid_table df_cf = true ->
  has_shares w w_solar w_onshore w_offshore ->
  0 <= w_solar -> 0 <= w_onshore -> 0 <= w_offshore ->
  0 <= fraction <= 1 ->
  exists sc,
    evaluate df_cf w fraction start_date end_date = Ok sc /\
    installed_capacity sc =
      installed_of (loc df_cf start_date end_date) fraction w_solar w_onshore w_offshore /\
    map generation (df_ sc) =
      map (power_profile (installed_capacity sc)) (loc df_cf start_date end_date) /\
    0 <= inst_Nuclear (installed_capacity sc) /\
    0 <= inst_Wind_offshore (installed_capacity sc) /\
    0 <= inst_Wind_onshore (installed_capacity sc) /\
    0 <= inst_Solar (installed_capacity sc) /\
    Forall (fun p => 0 <= gen_Nuclear (generation p) /\
                     0 <= gen_Wind_offshore (generation p) /\
                     0 <= gen_Wind_onshore (generation p) /\
                     0 <= gen_Solar (generation p)) (df_ sc).
Proof.
  intros Hv Hw Hs Hon Hoff [Hf0 Hf1]. unfold evaluate.
  rewrite (first_pass_shares _ _ _ _ _ _ Hw). cbn zeta.
  pose proof (valid_table_loc df_cf start_date end_date Hv) as Hrows.
  set (period := loc df_cf start_date end_date) in *.
  pose proof (valid_load_sum period Hrows) as HT.
  assert (HN : 0 <= nuclear_installed_of period fraction).
  { apply guarded_quotient_nonneg. apply Qmult_le_0_compat; lra. }
  assert (HC : 0 <= C_of period fraction w_solar w_onshore w_offshore).
  { apply guarded_quotient_nonneg. apply Qmult_le_0_compat; lra. }
  pose proof (Qmult_le_0_compat _ _ Hs HC) as HS.
  pose proof (Qmult_le_0_compat _ _ Hon HC) as HON.
  pose proof (Qmult_le_0_compat _ _ Hoff HC) as HOFF.
  eexists. split; [reflexivity |]. split; [reflexivity |].
  cbn [installed_capacity df_]. split; [now rewrite map_map |].
  cbn [installed_of inst_Nuclear inst_Solar inst_Wind_onshore inst_Wind_offshore].
  do 4 (split; [assumption |]).
  apply Forall_forall. intros p Hp.
  apply elem_of_map in Hp as (r & <- & Hr).
  rewrite Forall_forall in Hrows. apply Hrows, valid_row_bounds in Hr.
  cbn [with_storage generation power_profile gen_Nuclear gen_Wind_offshore
       gen_Wind_onshore gen_Solar installed_of inst_Nuclear inst_Solar
       inst_Wind_onshore inst_Wind_offshore].
  repeat split; apply Qmult_le_0_compat; tauto.
Qed.

Example installed_nonneg_witness :
  exists sc,
    evaluate example_table example_weights 0.5 0 0 = Ok sc /\
    0 <= inst_Solar (installed_capacity sc).
Proof.
  destruct (installed_nonneg example_table example_weights 0.5 1 0 0 0 0)
    as (sc & Hev & _ & _ & _ & _ & _ & Hs & _);
    [reflexivity | repeat split | vm_compute; discriminate
    | vm_compute; discriminate | vm_compute; discriminate
    | split; vm_compute; discriminate |].
  exists sc. split; [exact Hev | exact Hs].
Defined.

(** ** The backup capacity as a bound *)

Lemma battery_of_peaks (bs : list Q) :
  bs <> [] ->
  exists v ps pd,
    battery_of bs = Some v /\
    Spec.is_maximum ps (map (fun b => Qmax b 0) bs) /\
    Spec.is_maximum pd (map (fun b => Qmax (- b) 0) bs) /\
    v == Qmax ps pd.
Proof.
  intros Hbs. unfold battery_of.
  destruct (series_max_nonempty (map (clip_lower 0) bs)) as [ps Hps];
    [destruct bs; [congruence | discriminate] |].
  destruct (series_max_nonempty (map (fun b => - clip_upper 0 b) bs)) as [pd Hpd];
    [destruct bs; [congruence | discriminate] |].
  destruct (py_max_spec ps pd) as (v & Hv & Hvmax).
  pose proof (series_max_is_maximum _ _ Hps) as Mps.
  pose proof (series_max_is_maximum _ _ Hpd) as Mpd.
  apply (is_maximum_map_ext _ (fun b => Qmax b 0)) in Mps; [| apply clip_lower_spec].
  apply (is_maximum_map_ext _ (fun b => Qmax (- b) 0)) in Mpd; [| apply deficit_spec].
  exists v, ps, pd. rewrite Hps, Hpd. auto.
Qed.

Lemma Qmax_cases (x y : Q) :
  (y <= x /\ Qmax x y == x) \/ (x <= y /\ Qmax x y == y).
Proof.
  destruct (Qlt_le_dec x y) as [H|H].
  - right. split; [lra |]. apply Q.max_r. lra.
  - left. split; [lra |]. now apply Q.max_l.
Qed.

(** The backup capacity bounds every entry of [bess] in absolute value and
    one entry reaches it. *)
Lemma battery_of_bound (bs : list Q) :
  bs <> [] ->
  exists v,
    battery_of bs = Some v /\
    0 <= v /\
    Forall (fun b => - v <= b <= v) bs /\
    Exists (fun b => b == v \/ b == - v) bs.
Proof.
  intros Hbs.
  destruct (battery_of_peaks bs Hbs) as (v & ps & pd & Hv & [Eps Aps] & [Epd Apd] & Hmax).
  exists v. split; [exact Hv |].
  assert (Hps : ps <= v) by (rewrite Hmax; apply Q.le_max_l).
  assert (Hpd : pd <= v) by (rewrite Hmax; apply Q.le_max_r).
  assert (Hps0 : 0 <= ps).
  { apply Exists_exists in Eps as (x & Hin & Hx).
    apply elem_of_map in Hin as (b & <- & _). rewrite <- Hx. apply Q.le_max_r. }
  assert (Hall : Forall (fun b => - v <= b <= v) bs).
  { apply Forall_forall. intros b Hb.
    rewrite Forall_forall in Aps, Apd.
    assert (H1 : Qmax b 0 <= ps) by (apply Aps, elem_of_map; eauto).
    assert (H2 : Qmax (- b) 0 <= pd).
    { apply Apd, elem_of_map. exists b. auto. }
    pose proof (Q.le_max_l b 0). pose proof (Q.le_max_l (- b) 0). lra. }
  split; [lra |]. split; [exact Hall |].
  rewrite Forall_forall in Hall.
  destruct (Qmax_cases ps pd) as [[Hle Hm] | [Hle Hm]].
  - (* the surplus decides *)
    apply Exists_exists in Eps as (x & Hin & Hx).
    apply elem_of_map in Hin as (b & <- & Hin).
    apply Exists_exists. exists b. split; [exact Hin |].
    destruct (Qmax_cases b 0) as [[Hb Hb'] | [Hb Hb']].
    + left. lra.
    + (* the peak surplus is 0: so is the peak deficit, and [b] is 0 *)
      assert (H2 : Qmax (- b) 0 <= pd).
      { rewrite Forall_forall in Apd. apply Apd, elem_of_map. exists b. auto. }
      pose proof (Q.le_max_l (- b) 0). left. lra.
  - apply Exists_exists in Epd as (x & Hin & Hx).
    apply elem_of_map in Hin as (b & Hbx & Hin).
    apply Exists_exists. exists b. split; [exact Hin |].
    rewrite <- Hbx in Hx.
    destruct (Qmax_cases (- b) 0) as [[Hb Hb'] | [Hb Hb']].
    + right. lra.
    + assert (H1 : Qmax b 0 <= ps).
      { rewrite Forall_forall in Aps. apply Aps, elem_of_map. eauto. }
      pose proof (Q.le_max_l b 0). right. lra.
Qed.

Lemma first_pass_battery (period : list Row) (w : gmap string Q)
    (fraction w_solar w_onshore w_offshore : Q) :
  has_shares w w_solar w_onshore w_offshore ->
  exists sc,
    first_pass period w fraction = Ok sc /\
    installed_capacity sc = installed_of period fraction w_solar w_onshore w_offshore /\
    bess sc = map (bess_row (installed_capacity sc)) period /\
    battery_capacity sc = battery_of (bess sc).
Proof.
  intros Hw. rewrite (first_pass_shares _ _ _ _ _ _ Hw). cbn zeta.
  eexists. split; [reflexivity |]. repeat split.
Qed.

(** X5. On a non-empty window the backup capacity [v] is enough for every
    hour and not more than one hour needs: every net balance lies between
    [-v] and [v], and some hour has net balance [v] or [-v]. *)
Theorem backup_covers_every_hour (df_cf : list Row) (w : gmap string Q)
    (fraction w_solar w_onshore w_offshore : Q) (start_date end_date : Z) :
  is_monotonic_increasing (map ts df_cf) = true ->
  has_shares w w_solar w_onshore w_offshore ->
  loc df_cf start_date end_date <> [] ->
  exists sc v,
    evaluate df_cf w fraction start_date end_date = Ok sc /\
    bess sc = map (bess_row (installed_capacity sc)) (loc df_cf start_date end_date) /\
    battery_capacity sc = Some v /\
    (forall (i : nat) (b : Q), bess sc !! i = Some b -> - v <= b <= v) /\
    (exists (i : nat) (b : Q), bess sc !! i = Some b /\ (b == v \/ b == - v)).
Proof.
  intros _ Hw Hne. unfold evaluate.
  destruct (first_pass_battery (loc df_cf start_date end_date) w fraction _ _ _ Hw)
    as (sc & Hev & _ & Hbess & Hbat).
  destruct (battery_of_bound (bess sc)) as (v & Hv & _ & Hall & Hex).
  { rewrite Hbess. destruct (loc df_cf start_date end_date); [congruence | discriminate]. }
  exists sc, v. split; [exact Hev |]. split; [exact Hbess |].
  split; [congruence |]. split.
  - intros i b Hb. rewrite Forall_forall in Hall.
    apply Hall. eapply list_elem_of_lookup_2. exact Hb.
  - apply Exists_exists in Hex as (b & Hin & Hb).
    apply list_elem_of_lookup_1 in Hin as [i Hi]. eauto.
Qed.

Example backup_covers_every_hour_witness :
  exists sc v,
    evaluate example_table example_weights 0.5 0 0 = Ok sc /\
    battery_capacity sc = Some v /\
    (exists (i : nat) (b : Q), bess sc !! i = Some b /\ (b == v \/ b == - v)).
Proof.
  destruct (backup_covers_every_hour example_table example_weights 0.5 1 0 0 0 0)
    as (sc & v & Hev & _ & Hv & _ & Hex);
    [reflexivity | repeat split | vm_compute; discriminate |].
  exists sc, v. auto.
Defined.

(** ** The y-axis limits *)

Lemma series_min_nonempty (s : list Q) :
  s <> [] -> exists m, series_min s = Some m.
Proof.
  destruct s as [|x s]; [congruence |]. intros _. cbn [series_min].
  destruct (series_min s); eauto.
Qed.

Lemma series_min_is_minimum (s : list Q) (m : Q) :
  series_min s = Some m ->
  Exists (fun x => x == m) s /\ Forall (fun x => m <= x) s.
Proof.
  revert m. induction s as [|x s IH]; intros m; cbn [series_min]; [discriminate |].
  destruct (series_min s) as [m'|] eqn:E.
  - destruct (IH m' eq_refl) as [Hex Hall]. intros [= <-].
    destruct (Qltb m' x) eqn:Hlt.
    + apply Qltb_lt in Hlt. split.
      * now apply Exists_cons_tl.
      * constructor; [lra | exact Hall].
    + apply Qltb_ge in Hlt. split.
      * apply Exists_cons_hd. reflexivity.
      * constructor; [lra |].
        eapply Forall_impl; [exact Hall |]. cbv beta. intros y Hy. lra.
  - destruct s as [|y s]; [| cbn in E; destruct (series_min s); discriminate].
    intros [= <-]. split.
    + apply Exists_cons_hd. reflexivity.
    + constructor; [lra | constructor].
Qed.

Lemma fold_left_py_max (l : list Q) (a : Q) :
  exists M,
    fold_left py_max (map Some l) (Some a) = Some M /\
    a <= M /\ Forall (fun x => x <= M) l /\ (M = a \/ M ∈ l).
Proof.
  revert a. induction l as [|x l IH]; intros a; cbn [map fold_left].
  - exists a. split; [reflexivity |]. split; [lra |]. split; [constructor | now left].
  - cbn [py_max]. destruct (Qltb a x) eqn:E.
    + apply Qltb_lt in E. destruct (IH x) as (M & HM & Hle & Hall & Hin).
      exists M. split; [exact HM |]. split; [lra |].
      split; [constructor; [exact Hle | exact Hall] |].
      right. destruct Hin as [-> | Hin];
        [apply list_elem_of_here | now apply list_elem_of_further].
    + apply Qltb_ge in E. destruct (IH a) as (M & HM & Hle & Hall & Hin).
      exists M. split; [exact HM |]. split; [exact Hle |].
      split; [constructor; [lra | exact Hall] |].
      destruct Hin as [-> | Hin]; [now left | right; now apply list_elem_of_further].
Qed.

Lemma fold_left_py_min (l : list Q) (a : Q) :
  exists M,
    fold_left py_min (map Some l) (Some a) = Some M /\
    M <= a /\ Forall (fun x => M <= x) l /\ (M = a \/ M ∈ l).
Proof.
  revert a. induction l as [|x l IH]; intros a; cbn [map fold_left].
  - exists a. split; [reflexivity |]. split; [lra |]. split; [constructor | now left].
  - cbn [py_min]. destruct (Qltb x a) eqn:E.
    + apply Qltb_lt in E. destruct (IH x) as (M & HM & Hle & Hall & Hin).
      exists M. split; [exact HM |]. split; [lra |].
      split; [constructor; [exact Hle | exact Hall] |].
      right. destruct Hin as [-> | Hin];
        [apply list_elem_of_here | now apply list_elem_of_further].
    + apply Qltb_ge in E. destruct (IH a) as (M & HM & Hle & Hall & Hin).
      exists M. split; [exact HM |]. split; [exact Hle |].
      split; [constructor; [lra | exact Hall] |].
      destruct Hin as [-> | Hin]; [now left | right; now apply list_elem_of_further].
Qed.

Lemma all_numbers {A} (F : A -> option Q) (P : A -> Q -> Prop) (l : list A) :
  Forall (fun a => exists m, F a = Some m /\ P a m) l ->
  exists ms, map F l = map Some ms /\ Forall2 P l ms.
Proof.
  induction 1 as [|a l (m & Hm & HP) _ (ms & Hms & Hall)].
  - exists []. split; [reflexivity | constructor].
  - exists (m :: ms). cbn [map]. rewrite Hm, Hms. split; [reflexivity |].
    now constructor.
Qed.

Lemma scenario_limits (sc : Scenario) :
  plotted sc ->
  exists mx mn,
    max_positive sc = Some mx /\
    min_negative sc = Some mn /\
    Forall (fun p => row_sum (generation p) <= mx) (df_ sc) /\
    Exists (fun p => row_sum (generation p) == mx) (df_ sc) /\
    Forall (fun p => mn <= Storage_potential p /\
                     mn <= Storage_consumption_requirement p) (df_ sc) /\
    Exists (fun p => Storage_potential p == mn) (df_ sc) /\
    mn <= 0.
Proof.
  intros [Hne Hsign]. unfold max_positive, min_negative. cbv zeta.
  change (fun p : Profile =>
            gen_Nuclear (generation p) + gen_Wind_offshore (generation p) +
            gen_Wind_onshore (generation p) + gen_Solar (generation p))
    with (fun p => row_sum (generation p)).
  destruct (series_max_nonempty (map (fun p => row_sum (generation p)) (df_ sc)))
    as [mx Hmx]; [destruct (df_ sc); [congruence | discriminate] |].
  destruct (series_min_nonempty (map Storage_potential (df_ sc)))
    as [mp Hmp]; [destruct (df_ sc); [congruence | discriminate] |].
  destruct (series_min_nonempty (map Storage_consumption_requirement (df_ sc)))
    as [mc Hmc]; [destruct (df_ sc); [congruence | discriminate] |].
  rewrite Hmx, Hmp, Hmc.
  destruct (series_max_is_maximum _ _ Hmx) as [Exx Axx].
  destruct (series_min_is_minimum _ _ Hmp) as [Exp Axp].
  destruct (series_min_is_minimum _ _ Hmc) as [Exc Axc].
  rewrite Forall_forall in Hsign. rewrite Forall_forall in Axx.
  rewrite Forall_forall in Axp. rewrite Forall_forall in Axc.
  assert (Hmp0 : mp <= 0).
  { apply Exists_exists in Exp as (x & Hin & Hx).
    apply elem_of_map in Hin as (p & <- & Hin). rewrite <- Hx. now apply Hsign. }
  assert (Hmc0 : 0 <= mc).
  { apply Exists_exists in Exc as (x & Hin & Hx).
    apply elem_of_map in Hin as (p & <- & Hin). rewrite <- Hx. now apply Hsign. }
  exists mx, mp. split; [reflexivity |]. split.
  { cbn [py_min]. replace (Qltb mc mp) with false; [reflexivity |].
    symmetry. apply Qltb_ge. lra. }
  split; [| split; [| split; [| split]]].
  - apply Forall_forall. intros p Hp. apply Axx, elem_of_map. eauto.
  - apply Exists_exists in Exx as (x & Hin & Hx).
    apply elem_of_map in Hin as (p & <- & Hin). apply Exists_exists. eauto.
  - apply Forall_forall. intros p Hp. split.
    + apply Axp, elem_of_map. eauto.
    + assert (mc <= Storage_consumption_requirement p)
        by (apply Axc, elem_of_map; eauto). lra.
  - apply Exists_exists in Exp as (x & Hin & Hx).
    apply elem_of_map in Hin as (p & <- & Hin). apply Exists_exists. eauto.
  - exact Hmp0.
Qed.

Lemma y_axis_limits_plotted (sd : list Scenario) :
  sd <> [] ->
  Forall plotted sd ->
  exists y_min y_max,
    y_axis_limits sd =
      Ok (Some (y_min - (y_max - y_min) * 0.1), Some (y_max + (y_max - y_min) * 0.1)) /\
    (forall sc p, sc ∈ sd -> p ∈ df_ sc ->
       row_sum (generation p) <= y_max /\
       y_min <= Storage_potential p /\
       y_min <= Storage_consumption_requirement p) /\
    (exists sc p, sc ∈ sd /\ p ∈ df_ sc /\ row_sum (generation p) == y_max) /\
    (exists sc p, sc ∈ sd /\ p ∈ df_ sc /\ Storage_potential p == y_min) /\
    y_min <= 0.
Proof.
  intros Hne Hall.
  assert (Hlim : Forall (fun sc => exists mx mn,
                   max_positive sc = Some mx /\ min_negative sc = Some mn /\
                   Forall (fun p => row_sum (generation p) <= mx) (df_ sc) /\
                   Exists (fun p => row_sum (generation p) == mx) (df_ sc) /\
                   Forall (fun p => mn <= Storage_potential p /\
                                    mn <= Storage_consumption_requirement p) (df_ sc) /\
                   Exists (fun p => Storage_potential p == mn) (df_ sc) /\
                   mn <= 0) sd).
  { eapply Forall_impl; [exact Hall |]. apply scenario_limits. }
  destruct (all_numbers max_positive
              (fun sc mx => Forall (fun p => row_sum (generation p) <= mx) (df_ sc) /\
                            Exists (fun p => row_sum (generation p) == mx) (df_ sc)) sd)
    as (mxs & Hmxs & Pmx).
  { eapply Forall_impl; [exact Hlim |]. cbv beta.
    intros sc (mx & mn & H1 & _ & H3 & H4 & _). eauto. }
  destruct (all_numbers min_negative
              (fun sc mn => Forall (fun p => mn <= Storage_potential p /\
                                             mn <= Storage_consumption_requirement p)
                                   (df_ sc) /\
                            Exists (fun p => Storage_potential p == mn) (df_ sc) /\
                            mn <= 0) sd)
    as (mns & Hmns & Pmn).
  { eapply Forall_impl; [exact Hlim |]. cbv beta.
    intros sc (mx & mn & _ & H2 & _ & _ & H5 & H6 & H7). eauto. }
  unfold y_axis_limits. cbv zeta. rewrite Hmxs, Hmns.
  destruct sd as [|sc0 sd]; [congruence |].
  destruct mxs as [|mx0 mxs]; [inversion Pmx |].
  destruct mns as [|mn0 mns]; [inversion Pmn |].
  cbn [map py_max_list py_min_list bind].
  destruct (fold_left_py_max mxs mx0) as (y_max & -> & Hmx0 & Hmxall & Hmxin).
  destruct (fold_left_py_min mns mn0) as (y_min & -> & Hmn0 & Hmnall & Hmnin).
  cbn [bind nan_lift].
  exists y_min, y_max. split; [reflexivity |].
  assert (Hmaxs : Forall (fun m => m <= y_max) (mx0 :: mxs)) by (constructor; assumption).
  assert (Hmins : Forall (fun m => y_min <= m) (mn0 :: mns)) by (constructor; assumption).
  assert (Hmaxin : y_max ∈ mx0 :: mxs).
  { destruct Hmxin as [-> | H]; [apply list_elem_of_here | now apply list_elem_of_further]. }
  assert (Hminin : y_min ∈ mn0 :: mns).
  { destruct Hmnin as [-> | H]; [apply list_elem_of_here | now apply list_elem_of_further]. }
  clear Hmx0 Hmxall Hmxin Hmn0 Hmnall Hmnin.
  rewrite Forall_forall in Hmaxs. rewrite Forall_forall in Hmins.
  split; [| split; [| split]].
  - intros sc p Hsc Hp.
    apply list_elem_of_lookup_1 in Hsc as [i Hi].
    destruct (Forall2_lookup_l _ _ _ _ _ Pmx Hi) as (mx & Hmx & Fmx & _).
    destruct (Forall2_lookup_l _ _ _ _ _ Pmn Hi) as (mn & Hmn & Fmn & _).
    apply list_elem_of_lookup_2 in Hmx, Hmn.
    apply Hmaxs in Hmx. apply Hmins in Hmn.
    rewrite Forall_forall in Fmx. rewrite Forall_forall in Fmn.
    specialize (Fmx p Hp). destruct (Fmn p Hp). repeat split; lra.
  - apply list_elem_of_lookup_1 in Hmaxin as [i Hi].
    destruct (Forall2_lookup_r _ _ _ _ _ Pmx Hi) as (sc & Hsc & _ & Ex).
    apply Exists_exists in Ex as (p & Hp & Hpx).
    exists sc, p. split; [eapply list_elem_of_lookup_2; exact Hsc | auto].
  - apply list_elem_of_lookup_1 in Hminin as [i Hi].
    destruct (Forall2_lookup_r _ _ _ _ _ Pmn Hi) as (sc & Hsc & _ & Ex & _).
    apply Exists_exists in Ex as (p & Hp & Hpx).
    exists sc, p. split; [eapply list_elem_of_lookup_2; exact Hsc | auto].
  - apply list_elem_of_lookup_1 in Hminin as [i Hi].
    destruct (Forall2_lookup_r _ _ _ _ _ Pmn Hi) as (sc & Hsc & _ & _ & H0).
    exact H0.
Qed.

Lemma evaluate_plotted (df_cf : list Row) (w : gmap string Q)
    (fraction w_solar w_onshore w_offshore : Q) (start_date end_date : Z) (sc : Scenario) :
  has_shares w w_solar w_onshore w_offshore ->
  loc df_cf start_date end_date <> [] ->
  evaluate df_cf w fraction start_date end_date = Ok sc ->
  plotted sc.
Proof.
  intros Hw Hne. unfold evaluate.
  rewrite (first_pass_shares _ _ _ _ _ _ Hw). cbn zeta. intros [= <-].
  unfold plotted. cbn [df_]. split.
  - destruct (loc df_cf start_date end_date); [congruence | discriminate].
  - apply Forall_forall. intros p Hp. apply elem_of_map in Hp as (r & <- & _).
    split; apply storage_columns.
Qed.

(** X6. On a non-empty window and a non-empty list of fractions the shared
    y-axis limits are numbers: with [y_max] the largest hourly generation
    total and [y_min] the smallest storage potential over all scenarios
    ([y_min <= 0]), the limits are [y_min] and [y_max] moved outwards by a
    tenth of [y_max - y_min].  Every hourly generation total is at most
    [y_max] and every value of the two storage columns at least [y_min]. *)
Theorem y_axis_limits_contain (df_cf : list Row) (w : gmap string Q)
    (w_solar w_onshore w_offshore : Q) (fractions : list Q) (start_date end_date : Z) :
  is_monotonic_increasing (map ts df_cf) = true ->
  has_shares w w_solar w_onshore w_offshore ->
  fractions <> [] ->
  loc df_cf start_date end_date <> [] ->
  exists sd bc ic y_min y_max,
    create_interactive_energy_plot df_cf w fractions start_date end_date
      = Ok (sd, bc, ic) /\
    y_axis_limits sd =
      Ok (Some (y_min - (y_max - y_min) * 0.1), Some (y_max + (y_max - y_min) * 0.1)) /\
    (forall sc p, sc ∈ sd -> p ∈ df_ sc ->
       row_sum (generation p) <= y_max /\
       y_min <= Storage_potential p /\
       y_min <= Storage_consumption_requirement p) /\
    (exists sc p, sc ∈ sd /\ p ∈ df_ sc /\ row_sum (generation p) == y_max) /\
    (exists sc p, sc ∈ sd /\ p ∈ df_ sc /\ Storage_potential p == y_min) /\
    y_min <= 0.
Proof.
  intros _ Hw Hf Hne. unfold create_interactive_energy_plot.
  destruct (mapM_evaluate df_cf w _ _ _ fractions start_date end_date Hw) as [sd Hsd].
  rewrite Hsd. cbn [bind].
  destruct (mapM_lookup _ _ _ Hsd) as [Hlen Hall].
  assert (Hsdne : sd <> []).
  { intros ->. destruct fractions; [congruence | discriminate]. }
  assert (Hplotted : Forall plotted sd).
  { apply Forall_lookup. intros i sc Hi.
    destruct (fractions !! i) as [f|] eqn:Hfi.
    - destruct (Hall i f Hfi) as (sc' & Hev & Hsc').
      assert (sc' = sc) as -> by congruence.
      eapply evaluate_plotted; eauto.
    - apply lookup_ge_None in Hfi. apply lookup_lt_Some in Hi. lia. }
  destruct (y_axis_limits_plotted sd Hsdne Hplotted) as (y_min & y_max & H).
  destruct sd as [|sc0 sd]; [congruence |].
  eexists _, _, _, y_min, y_max. split; [reflexivity | exact H].
Qed.

Example y_axis_limits_contain_witness :
  exists sd bc ic lo hi,
    create_interactive_energy_plot example_table example_weights [0; 0.5] 0 0
      = Ok (sd, bc, ic) /\
    y_axis_limits sd = Ok (Some lo, Some hi).
Proof.
  destruct (y_axis_limits_contain example_table example_weights 1 0 0 [0; 0.5] 0 0)
    as (sd & bc & ic & y_min & y_max & Hev & Hlim & _);
    [reflexivity | repeat split | discriminate | vm_compute; discriminate |].
  exists sd, bc, ic. eexists _, _. split; [exact Hev | exact Hlim].
Defined.

(** ** The traces of the figure *)








(** ** The callback, case by case *)

Lemma to_datetime_plus (d n : Z) :
  (to_datetime d + timedelta n)%Z = to_datetime (d + n).
Proof.
  unfold to_datetime, timedelta. lia.
Qed.

Lemma to_datetime_ltb (d d' : Z) :
  (to_datetime d <? to_datetime d')%Z = (d <? d')%Z.
Proof.
  unfold to_datetime.
  destruct (Z.ltb_spec (d * 24) (d' * 24)), (Z.ltb_spec d d'); try reflexivity; lia.
Qed.

Lemma plot_two (df_cf : list Row) (f1 f2 : Q) (start_date end_date : Z) :
  exists sc1 sc2,
    evaluate df_cf capacities_dict f1 start_date end_date = Ok sc1 /\
    evaluate df_cf capacities_dict f2 start_date end_date = Ok sc2 /\
    create_interactive_energy_plot df_cf capacities_dict [f1; f2] start_date end_date
      = Ok ([sc1; sc2],
            [battery_capacity sc1; battery_capacity sc2],
            [installed_capacity sc1; installed_capacity sc2]).
Proof.
  unfold create_interactive_energy_plot, evaluate. cbn [mapM].
  rewrite !(first_pass_shares _ _ _ _ _ _ capacities_dict_shares). cbn zeta.
  cbn [bind]. eexists _, _. repeat split.
Qed.

(** What the callback returns for a picked start day, with the date
    arithmetic carried out. *)
Lemma update_graph_picked (df_cf : list Row) (start_date duration_days nuc1 nuc2 : Z) :
  let clipped := (max_date df_cf <? start_date + duration_days)%Z in
  let adjusted := (start_date <? min_date df_cf)%Z in
  let end_str := if clipped then max_date df_cf else (start_date + duration_days)%Z in
  let start_str := if adjusted then min_date df_cf else start_date in
  exists sc1 sc2,
    evaluate df_cf capacities_dict (inject_Z nuc1 / 100) start_str end_str = Ok sc1 /\
    evaluate df_cf capacities_dict (inject_Z nuc2 / 100) start_str end_str = Ok sc2 /\
    update_graph df_cf (Some start_date) duration_days nuc1 nuc2 =
      {| figure := Some [sc1; sc2];
         warning_message :=
           if adjusted then StartAdjusted (min_date df_cf)
           else if clipped then BeyondData (max_date df_cf - start_date)
           else NoWarning;
         date_info :=
           Some {| info_start := start_str; info_end := end_str;
                   info_days := end_str - start_str |};
         backup_display_1 := MinimumBackup (battery_capacity sc1);
         backup_display_2 := MinimumBackup (battery_capacity sc2);
         donut_1 := Some (installed_capacity sc1);
         donut_2 := Some (installed_capacity sc2) |}.
Proof.
  cbv zeta.
  destruct (plot_two df_cf (inject_Z nuc1 / 100) (inject_Z nuc2 / 100)
              (if (start_date <? min_date df_cf)%Z then min_date df_cf else start_date)
              (if (max_date df_cf <? start_date + duration_days)%Z
               then max_date df_cf else (start_date + duration_days)%Z))
    as (sc1 & sc2 & Hev1 & Hev2 & Hplot).
  exists sc1, sc2. split; [exact Hev1 |]. split; [exact Hev2 |].
  unfold update_graph. rewrite to_datetime_plus, !to_datetime_ltb.
  destruct (max_date df_cf <? start_date + duration_days)%Z,
           (start_date <? min_date df_cf)%Z;
    cbv beta iota zeta; rewrite ?day_to_datetime, ?days_between;
    cbn [map]; rewrite Hplot; reflexivity.
Qed.




Lemma evaluate_hours (df_cf : list Row) (fraction : Q) (start_date end_date : Z)
    (sc : Scenario) :
  evaluate df_cf capacities_dict fraction start_date end_date = Ok sc ->
  map (fun p => gen_ts (generation p)) (df_ sc) =
  map ts (loc df_cf start_date end_date).
Proof.
  unfold evaluate.
  rewrite (first_pass_shares _ _ _ _ _ _ capacities_dict_shares). cbn zeta.
  intros [= <-]. cbn [df_]. now rewrite map_map.
Qed.

(** X10. For a request inside the data (start day not before the first day,
    start plus duration not after the last day) the callback gives no
    warning and reports [duration_days] days from the start day to the start
    day plus the duration; the hours evaluated are those of every row whose
    day lies between these two days, both included, so the rows of
    [duration_days + 1] calendar days. *)
Theorem update_graph_window_inclusive (df_cf : list Row)
    (start_date duration_days nuc1 nuc2 : Z) :
  is_monotonic_increasing (map ts df_cf) = true ->
  (min_date df_cf <= start_date)%Z ->
  (start_date + duration_days <= max_date df_cf)%Z ->
  exists sc1 sc2,
    update_graph df_cf (Some start_date) duration_days nuc1 nuc2 =
      {| figure := Some [sc1; sc2];
         warning_message := NoWarning;
         date_info :=
           Some {| info_start := start_date;
                   info_end := start_date + duration_days;
                   info_days := duration_days |};
         backup_display_1 := MinimumBackup (battery_capacity sc1);
         backup_display_2 := MinimumBackup (battery_capacity sc2);
         donut_1 := Some (installed_capacity sc1);
         donut_2 := Some (installed_capacity sc2) |} /\
    map (fun p => gen_ts (generation p)) (df_ sc1)
      = map ts (loc df_cf start_date (start_date + duration_days)) /\
    map (fun p => gen_ts (generation p)) (df_ sc2)
      = map ts (loc df_cf start_date (start_date + duration_days)) /\
    forall r, r ∈ df_cf ->
      (start_date <= day (ts r) <= start_date + duration_days)%Z ->
      ts r ∈ map (fun p => gen_ts (generation p)) (df_ sc1).
Proof.
  intros _ Hmin Hmax.
  destruct (update_graph_picked df_cf start_date duration_days nuc1 nuc2)
    as (sc1 & sc2 & Hev1 & Hev2 & Hout).
  cbv zeta in Hev1, Hev2, Hout.
  assert (H1 : (max_date df_cf <? start_date + duration_days)%Z = false)
    by (apply Z.ltb_ge; lia).
  assert (H2 : (start_date <? min_date df_cf)%Z = false) by (apply Z.ltb_ge; lia).
  rewrite H1, H2 in *.
  exists sc1, sc2. split.
  - rewrite Hout. repeat f_equal. lia.
  - rewrite (evaluate_hours _ _ _ _ _ Hev1), (evaluate_hours _ _ _ _ _ Hev2).
    do 2 (split; [reflexivity |]).
    intros r Hr Hday. apply elem_of_map. exists r. split; [reflexivity |].
    unfold loc. apply list_elem_of_filter. auto.
Qed.

Example update_graph_window_inclusive_witness :
  exists out,
    update_graph example_table (Some 0%Z) 0 0 20 = out /\
    warning_message out = NoWarning.
Proof.
  destruct (update_graph_window_inclusive example_table 0 0 0 20)
    as (sc1 & sc2 & Hout & _);
    [reflexivity | vm_compute; discriminate | vm_compute; discriminate |].
  eexists. split; [reflexivity |]. rewrite Hout. reflexivity.
Defined.

Lemma fold_min_spec (t : Z) (index : list Z) :
  (fold_right Z.min t index <= t)%Z /\
  Forall (fun t' => (fold_right Z.min t index <= t')%Z) index.
Proof.
  induction index as [|t' index (Hle & Hall)]; cbn [fold_right].
  - split; [lia | constructor].
  - split; [lia |].
    constructor; [lia |]. eapply Forall_impl; [exact Hall |].
    cbv beta. intros; lia.
Qed.

Lemma index_min_spec (df_cf : list Row) :
  Forall (fun r => (index_min df_cf <= ts r)%Z) df_cf.
Proof.
  destruct df_cf as [|r0 df_cf]; [constructor |].
  unfold index_min. cbn [map].
  destruct (fold_min_spec (ts r0) (map ts df_cf)) as (Hle & Hall).
  constructor; [exact Hle |].
  apply Forall_forall. intros r Hr. rewrite Forall_forall in Hall.
  apply Hall, elem_of_map. eauto.
Qed.

Lemma day_mono (t t' : Z) : (t <= t')%Z -> (day t <= day t')%Z.
Proof.
  intros H. unfold day. apply Z.div_le_mono; lia.
Qed.

Lemma date_bounds (df_cf : list Row) :
  Forall (fun r => (min_date df_cf <= day (ts r) <= max_date df_cf)%Z) df_cf.
Proof.
  destruct df_cf as [|r0 df_cf]; [constructor |].
  pose proof (index_min_spec (r0 :: df_cf)) as Hmin.
  destruct (index_max_spec (r0 :: df_cf)) as [_ Hmax]; [discriminate |].
  rewrite Forall_forall in Hmin. rewrite Forall_forall in Hmax.
  apply Forall_forall. intros r Hr. unfold min_date, max_date.
  split; apply day_mono; auto.
Qed.




(** X12. When the picked start day is after the last day of the data, the
    end is clipped to the last day, before the start: the window has no row,
    the callback still returns the figure for two scenarios without hours,
    both backup displays carry NaN, and the warning and the date information
    report a negative number of days. *)
Theorem update_graph_start_after_data (df_cf : list Row)
    (start_date duration_days nuc1 nuc2 : Z) :
  is_monotonic_increasing (map ts df_cf) = true ->
  df_cf <> [] ->
  (max_date df_cf < start_date)%Z ->
  (0 <= duration_days)%Z ->
  exists sc1 sc2,
    update_graph df_cf (Some start_date) duration_days nuc1 nuc2 =
      {| figure := Some [sc1; sc2];
         warning_message := BeyondData (max_date df_cf - start_date);
         date_info :=
           Some {| info_start := start_date; info_end := max_date df_cf;
                   info_days := max_date df_cf - start_date |};
         backup_display_1 := MinimumBackup None;
         backup_display_2 := MinimumBackup None;
         donut_1 := Some (installed_capacity sc1);
         donut_2 := Some (installed_capacity sc2) |} /\
    df_ sc1 = [] /\ df_ sc2 = [] /\
    (max_date df_cf - start_date < 0)%Z.
Proof.
  intros _ Hne Hafter Hdur.
  destruct (update_graph_picked df_cf start_date duration_days nuc1 nuc2)
    as (sc1 & sc2 & Hev1 & Hev2 & Hout).
  cbv zeta in Hev1, Hev2, Hout.
  assert (Hbounds : (min_date df_cf <= max_date df_cf)%Z).
  { pose proof (date_bounds df_cf) as H. destruct df_cf as [|r df_cf]; [congruence |].
    inversion H; subst. lia. }
  assert (H1 : (max_date df_cf <? start_date + duration_days)%Z = true)
    by (apply Z.ltb_lt; lia).
  assert (H2 : (start_date <? min_date df_cf)%Z = false) by (apply Z.ltb_ge; lia).
  rewrite H1, H2 in *.
  assert (Hempty : loc df_cf start_date (max_date df_cf) = [])
    by (apply loc_reversed; lia).
  unfold evaluate in Hev1, Hev2. rewrite Hempty in Hev1, Hev2.
  rewrite (first_pass_shares _ _ _ _ _ _ capacities_dict_shares) in Hev1.
  rewrite (first_pass_shares _ _ _ _ _ _ capacities_dict_shares) in Hev2.
  cbn zeta in Hev1, Hev2.
  injection Hev1 as <-. injection Hev2 as <-.
  eexists _, _. split; [exact Hout |]. repeat split. lia.
Qed.

Example update_graph_start_after_data_witness :
  backup_display_1 (update_graph example_table (Some 5%Z) 1 0 20) = MinimumBackup None.
Proof.
  destruct (update_graph_start_after_data example_table 5 1 0 20)
    as (sc1 & sc2 & Hout & _);
    [reflexivity | discriminate | vm_compute; reflexivity | vm_compute; discriminate |].
  rewrite Hout. reflexivity.
Defined.

(** ** The donut *)

(** X13. The donut of a scenario has the four slices Nuclear, Wind offshore,
    Wind onshore, Solar, in this order, each with its colour of the palette
    (the fallback grey is not used), and its annotation is the sum of the
    four installed capacities; on an empty window that total is zero. *)
Theorem donut_of_scenario (df_cf : list Row) (w : gmap string Q)
    (fraction w_solar w_onshore w_offshore : Q) (start_date end_date : Z) :
  is_monotonic_increasing (map ts df_cf) = true ->
  has_shares w w_solar w_onshore w_offshore ->
  exists sc,
    evaluate df_cf w fraction start_date end_date = Ok sc /\
    let donut := create_capacity_donut (installed_capacity sc) colors in
    installed_capacity sc =
      installed_of (loc df_cf start_date end_date) fraction w_solar w_onshore w_offshore /\
    labels donut = ["Nuclear"; "Wind offshore"; "Wind onshore"; "Solar"] /\
    values donut =
      [inst_Nuclear (installed_capacity sc); inst_Wind_offshore (installed_capacity sc);
       inst_Wind_onshore (installed_capacity sc); inst_Solar (installed_capacity sc)] /\
    chart_colors donut = ["#9B59B6"; "#4A90E2"; "#7CB9E8"; "#FDB813"] /\
    total_capacity donut ==
      inst_Nuclear (installed_capacity sc) + inst_Wind_offshore (installed_capacity sc) +
      inst_Wind_onshore (installed_capacity sc) + inst_Solar (installed_capacity sc) /\
    (loc df_cf start_date end_date = [] -> total_capacity donut == 0).
Proof.
  intros _ Hw. unfold evaluate.
  rewrite (first_pass_shares _ _ _ _ _ _ Hw). cbn zeta.
  eexists. split; [reflexivity |]. cbv zeta.
  cbn [installed_capacity].
  split; [reflexivity |].
  split; [reflexivity |]. split; [reflexivity |]. split; [vm_compute; reflexivity |].
  unfold create_capacity_donut.
  cbn [total_capacity installed_items map snd fold_left installed_of inst_Nuclear
       inst_Wind_offshore inst_Wind_onshore inst_Solar].
  split; [ring |].
  intros ->. rewrite C_of_empty. unfold nuclear_installed_of.
  cbn [map series_sum fold_right].
  change (Qltb 0 0) with false. cbv iota. ring.
Qed.

Example donut_of_scenario_witness :
  exists sc,
    evaluate example_table example_weights 0.5 0 0 = Ok sc /\
    chart_colors (create_capacity_donut (installed_capacity sc) colors)
      = ["#9B59B6"; "#4A90E2"; "#7CB9E8"; "#FDB813"].
Proof.
  destruct (donut_of_scenario example_table example_weights 0.5 1 0 0 0 0)
    as (sc & Hev & _ & _ & _ & Hc & _); [reflexivity | repeat split |].
  exists sc. split; [exact Hev | exact Hc].
Defined.
